(** * Airbnb NYC price analysis: the cleaning and statistics pipeline

    A shallow embedding of [analysis.py].  A pandas [DataFrame] is a list of
    rows; the frames of a run live in a store, so that a function which
    assigns a column of the frame it was given is told apart from one which
    builds a new frame.

    Numbers.  A numeric cell is an exact rational, or missing ([None], the
    NaN of pandas), and the arithmetic of the model is exact.  The only
    irrational quantity of the script is the standard deviation (a square
    root), which is a real number; the z-score column is therefore
    real-valued.

    The script itself computes in IEEE 754 binary64, where every operation
    rounds.  A statement that depends on the last bit of a result (which
    side of a bound a value falls on, whether two edges coincide, whether a
    difference is exactly zero) is therefore made for columns of whole
    numbers of bounded size, where the operations involved are exact in
    binary64 too, or is made with a margin that no rounding error reaches;
    the part [Binary64] below has the notions for this, and the outlier
    filter on doubles. *)

From Stdlib Require Import Floats.
From Stdlib Require Import String Ascii List Bool Arith ZArith QArith Qround Qreals.
From Stdlib Require Import Reals Lia Psatz Permutation Sorted.
Import ListNotations.

Local Open Scope Q_scope.

(* ================================================================= *)
(** ** Cells and NaN-propagating arithmetic *)

(** A float cell: [None] is NaN. *)
Definition cell := option Q.

(** A real-valued float cell ([price_zscore]); [None] is NaN. *)
Definition rcell := option R.

Definition fsub (a b : cell) : cell :=
  match a, b with
  | Some x, Some y => Some (x - y)
  | _, _ => None
  end.

Definition fadd (a b : cell) : cell :=
  match a, b with
  | Some x, Some y => Some (x + y)
  | _, _ => None
  end.

Definition fmul (a b : cell) : cell :=
  match a, b with
  | Some x, Some y => Some (x * y)
  | _, _ => None
  end.

(** [a >= b] and [a <= b] on floats: a comparison with NaN is false. *)
Definition fge (a b : cell) : bool :=
  match a, b with
  | Some x, Some y => Qle_bool y x
  | _, _ => false
  end.

Definition fle (a b : cell) : bool :=
  match a, b with
  | Some x, Some y => Qle_bool x y
  | _, _ => false
  end.

Definition isna {A} (a : option A) : bool :=
  match a with None => true | Some _ => false end.

(** The values of a column that are not missing ([skipna]). *)
Fixpoint dropna {A} (xs : list (option A)) : list A :=
  match xs with
  | [] => []
  | Some x :: t => x :: dropna t
  | None :: t => dropna t
  end.

(** Real division of floats.  [x / 0] is not a finite number: NaN for
    [x = 0], an infinity otherwise.  The one division of the script has the
    standard deviation as divisor, and a zero standard deviation forces every
    numerator to be zero (lemma [zero_var_all_mean] below), so the result
    [None] of a division by zero is always the NaN of [0 / 0] here. *)
Definition rdiv (a b : rcell) : rcell :=
  match a, b with
  | Some x, Some y => if Req_dec_T y 0 then None else Some (x / y)%R
  | _, _ => None
  end.

(* ================================================================= *)
(** ** Sorting and the linear-interpolation quantile *)

Fixpoint insert (x : Q) (l : list Q) : list Q :=
  match l with
  | [] => [x]
  | y :: t => if Qle_bool x y then x :: y :: t else y :: insert x t
  end.

Fixpoint sort (l : list Q) : list Q :=
  match l with
  | [] => []
  | x :: t => insert x (sort t)
  end.

(** [Series.quantile(q)] with the default [interpolation='linear']: missing
    values are skipped; on the sorted values [s] of length [n] the virtual
    index is [(n-1)*q], [j] its floor and [g] its fractional part, and the
    result is [s[j] + (s[j+1] - s[j]) * g], the upper index clipped to
    [n-1].  A column without values has quantile NaN. *)
Definition quantile (q : Q) (xs : list cell) : cell :=
  let s := sort (dropna xs) in
  match s with
  | [] => None
  | _ :: _ =>
      let n := length s in
      let pos := inject_Z (Z.of_nat (n - 1)) * q in
      let j := Z.to_nat (Qfloor pos) in
      let g := pos - inject_Z (Qfloor pos) in
      let a := nth j s 0 in
      let b := nth (Nat.min (j + 1) (n - 1)) s 0 in
      Some (a + (b - a) * g)
  end.

(* ================================================================= *)
(** ** Rows and frames *)

(** A cell of [last_review]: text as read from the CSV, or, after
    [pd.to_datetime], a timestamp; [NaT] is the missing value of both. *)
Inductive date_cell :=
| NaT
| DateText (s : string)
| Timestamp (t : Z).

(** One listing, with the columns the script names; [other] holds the
    columns it never names. *)
Record Row := mkRow {
  neighbourhood_group : option string;
  room_type : option string;
  last_review : date_cell;
  reviews_per_month : cell;
  price : cell;
  other : list (string * string)
}.

(** A frame: its rows, and the two derived columns, [None] while the frame
    does not have the column. *)
Record DataFrame := mkFrame {
  rows : list Row;
  price_zscore : option (list rcell);
  price_bin : option (list (option string))
}.

(** The numeric columns a caller can pass as [price_col]. *)
Inductive numcol := col_price | col_reviews_per_month.

Definition getcol (c : numcol) (r : Row) : cell :=
  match c with
  | col_price => price r
  | col_reviews_per_month => reviews_per_month r
  end.

(** [df[price_col]] *)
Definition column (c : numcol) (df : DataFrame) : list cell :=
  map (getcol c) (rows df).

Definition set_reviews_per_month (v : cell) (r : Row) : Row :=
  mkRow (neighbourhood_group r) (room_type r) (last_review r) v (price r) (other r).

Definition set_last_review (v : date_cell) (r : Row) : Row :=
  mkRow (neighbourhood_group r) (room_type r) v (reviews_per_month r) (price r) (other r).

(** [df[mask]] on one column: the entries whose mask bit is set. *)
Fixpoint select {A} (mask : list bool) (l : list A) : list A :=
  match mask, l with
  | b :: mask', x :: l' => if b then x :: select mask' l' else select mask' l'
  | _, _ => []
  end.

(** [df[mask]]: every column is cut by the same mask. *)
Definition getitem_mask (mask : list bool) (df : DataFrame) : DataFrame :=
  mkFrame (select mask (rows df))
          (option_map (select mask) (price_zscore df))
          (option_map (select mask) (price_bin df)).

(* ================================================================= *)
(** ** Exceptions, the store of frames, and the monad of the script *)

(** A Python exception: its class name and message. *)
Record exn := Raise { exn_class : string; exn_msg : string }.

(** A reference to a frame: its position in the store. *)
Definition ref := nat.

Definition store := list DataFrame.

(** A computation reads and writes the store and ends with a value or with
    an exception; the store it leaves is kept in both cases. *)
Definition M (A : Type) := store -> (exn + A) * store.

Definition ret {A} (a : A) : M A := fun s => (inr a, s).

Definition raise {A} (e : exn) : M A := fun s => (inl e, s).

Definition bind {A B} (m : M A) (k : A -> M B) : M B :=
  fun s =>
    match m s with
    | (inl e, s') => (inl e, s')
    | (inr a, s') => k a s'
    end.

Declare Scope py_scope.
Delimit Scope py_scope with py.
Notation "x <- m ;; k" := (bind m (fun x => k))
  (at level 100, m at next level, right associativity) : py_scope.
Notation "m ;;; k" := (bind m (fun _ => k))
  (at level 100, right associativity) : py_scope.
Local Open Scope py_scope.

(** Lifting a pure computation that may raise. *)
Definition lift {A} (r : exn + A) : M A := fun s => (r, s).

(** A new frame object. *)
Definition new_frame (df : DataFrame) : M ref :=
  fun s => (inr (length s), s ++ [df]).

(** Replacing position [l]; positions outside the list are left alone. *)
Fixpoint update (l : nat) (df : DataFrame) (s : store) : store :=
  match s, l with
  | [], _ => []
  | _ :: t, O => df :: t
  | d :: t, S l' => d :: update l' df t
  end.

(** Reading the frame a reference points to.  A reference of the script
    always points to a frame; the error case is for references that do
    not. *)
Definition get_frame (l : ref) : M DataFrame :=
  fun s =>
    match nth_error s l with
    | Some df => (inr df, s)
    | None => (inl (Raise "ReferenceError" "no such frame"), s)
    end.

(** Mutating the frame a reference points to, in place. *)
Definition set_frame (l : ref) (df : DataFrame) : M unit :=
  fun s => (inr tt, update l df s).

(* ================================================================= *)
(** ** load_data *)

Definition fillna (v : Q) (c : cell) : cell :=
  match c with
  | None => Some v
  | Some x => Some x
  end.

Section Load.

(** The files of the machine, each already parsed into a table
    ([pd.read_csv]), and the date parser of [pd.to_datetime]. *)
Variable fs : string -> option DataFrame.
Variable parse_date : string -> option Z.

Definition read_csv (file_path : string) : M ref :=
  match fs file_path with
  | Some t => new_frame t
  | None => raise (Raise "FileNotFoundError" file_path)
  end.

(** [pd.to_datetime(..., errors='coerce')] on one cell. *)
Definition to_datetime (c : date_cell) : date_cell :=
  match c with
  | DateText s =>
      match parse_date s with
      | Some t => Timestamp t
      | None => NaT
      end
  | c' => c'
  end.

(** [df.dropna(subset=['neighbourhood_group', 'room_type'])]: a new
    frame with the rows that have both. *)
Definition dropna_subset (d : DataFrame) : DataFrame :=
  getitem_mask
    (map (fun r => negb (isna (neighbourhood_group r)) && negb (isna (room_type r)))
         (rows d))
    d.

Definition load_data (file_path : string) : M ref :=
  df <- read_csv file_path ;;
  d <- get_frame df ;;
  set_frame df
    (mkFrame (map (fun r => set_last_review (to_datetime (last_review r)) r) (rows d))
             (price_zscore d) (price_bin d)) ;;;
  d <- get_frame df ;;
  set_frame df
    (mkFrame (map (fun r => set_reviews_per_month (fillna 0 (reviews_per_month r)) r) (rows d))
             (price_zscore d) (price_bin d)) ;;;
  d <- get_frame df ;;
  df' <- new_frame (dropna_subset d) ;;
  ret df'.

End Load.

(* ================================================================= *)
(** ** remove_price_outliers *)

(** The boolean mask
    [(df[price_col] >= lower_bound) & (df[price_col] <= upper_bound)],
    for one cell. *)
Definition in_bounds (lower_bound upper_bound : cell) (v : cell) : bool :=
  fge v lower_bound && fle v upper_bound.

(** [df[mask]] builds a frame and [.copy()] builds another one, which is
    returned. *)
Definition remove_price_outliers (df : ref) (price_col : numcol) : M ref :=
  d <- get_frame df ;;
  let q1 := quantile (1 # 4) (column price_col d) in
  let q3 := quantile (3 # 4) (column price_col d) in
  let iqr := fsub q3 q1 in
  let lower_bound := fsub q1 (fmul (Some (3 # 2)) iqr) in
  let upper_bound := fadd q3 (fmul (Some (3 # 2)) iqr) in
  masked <- new_frame
    (getitem_mask (map (in_bounds lower_bound upper_bound) (column price_col d)) d) ;;
  m <- get_frame masked ;;
  filtered_df <- new_frame m ;;
  ret filtered_df.

(* ================================================================= *)
(** ** Mean, variance and standard deviation *)

Definition Qsum (l : list Q) : Q := fold_right Qplus 0 l.

Definition Qn (n : nat) : Q := inject_Z (Z.of_nat n).

(** [Series.mean()]: missing values are skipped; NaN without values. *)
Definition mean (xs : list cell) : cell :=
  match dropna xs with
  | [] => None
  | v => Some (Qsum v / Qn (length v))
  end.

(** [Series.var(ddof)]: the squared deviations from the mean, summed and
    divided by [n - ddof]; NaN when [n <= ddof]. *)
Definition var (ddof : nat) (xs : list cell) : cell :=
  let v := dropna xs in
  if (length v <=? ddof)%nat then None
  else
    match mean xs with
    | Some m => Some (Qsum (map (fun x => (x - m) * (x - m)) v) / Qn (length v - ddof))
    | None => None
    end.

(** [Series.std(ddof)]: the square root of the variance. *)
Definition std (ddof : nat) (xs : list cell) : rcell :=
  option_map (fun v => sqrt (Q2R v)) (var ddof xs).

(** The same three reductions on a real-valued column. *)
Definition Rsum (l : list R) : R := fold_right Rplus 0%R l.

Definition rmean (xs : list rcell) : rcell :=
  match dropna xs with
  | [] => None
  | v => Some (Rsum v / INR (length v))%R
  end.

Definition rvar (ddof : nat) (xs : list rcell) : rcell :=
  let v := dropna xs in
  if (length v <=? ddof)%nat then None
  else
    match rmean xs with
    | Some m => Some (Rsum (map (fun x => (x - m) * (x - m))%R v) / INR (length v - ddof))%R
    | None => None
    end.

Definition rstd (ddof : nat) (xs : list rcell) : rcell :=
  option_map sqrt (rvar ddof xs).

(* ================================================================= *)
(** ** pd.qcut *)

(** Equality of float cells as [unique] sees it: NaN is one value. *)
Definition cell_eqb (a b : cell) : bool :=
  match a, b with
  | Some x, Some y => Qeq_bool x y
  | None, None => true
  | _, _ => false
  end.

(** [algos.unique]: first occurrences, in order. *)
Fixpoint unique_from (seen : list cell) (l : list cell) : list cell :=
  match l with
  | [] => []
  | x :: t =>
      if existsb (cell_eqb x) seen then unique_from seen t
      else x :: unique_from (x :: seen) t
  end.

Definition unique (l : list cell) : list cell := unique_from [] l.

(** [x == y] on floats: false with NaN. *)
Definition feq (a b : cell) : bool :=
  match a, b with
  | Some x, Some y => Qeq_bool x y
  | _, _ => false
  end.

(** [a < b] on floats. *)
Definition flt (a b : cell) : bool :=
  match a, b with
  | Some x, Some y => negb (Qle_bool y x)
  | _, _ => false
  end.

(** [bins.searchsorted(v, side='left')] on sorted edges: the number of
    edges strictly below [v]; NaN sorts last. *)
Definition searchsorted_left (bins : list cell) (v : cell) : nat :=
  match v with
  | None => length bins
  | Some _ => length (filter (fun b => flt b v) bins)
  end.

Definition has_duplicates (labels : list string) : bool :=
  negb (length (nodup string_dec labels) =? length labels)%nat.

(** [_bins_to_cuts(x, bins, labels=labels, include_lowest=True,
    duplicates='raise')]: the intervals are closed on the right, and the
    first one also on the left.  The messages of the exceptions are
    abridged: pandas appends the edges it was given. *)
Definition bins_to_cuts (x bins : list cell) (labels : list string)
  : exn + list (option string) :=
  if (length (unique bins) <? length bins)%nat && negb (length bins =? 2)%nat then
    inl (Raise "ValueError" "Bin edges must be unique")
  else if has_duplicates labels then
    inl (Raise "ValueError" "labels must be unique if ordered=True")
  else if negb (length labels =? length bins - 1)%nat then
    inl (Raise "ValueError" "Bin labels must be one fewer than the number of bin edges")
  else
    inr (map (fun v =>
                let ids := if feq v (hd None bins) then 1%nat
                           else searchsorted_left bins v in
                if isna v || (ids =? length bins)%nat || (ids =? 0)%nat then None
                else nth_error labels (ids - 1))
             x).

(** [np.linspace(0, 1, q + 1)] *)
Definition linspace01 (q : nat) : list Q :=
  map (fun i => Qn i / Qn q) (seq 0 (q + 1)).

(** [pd.qcut(x, q, labels=labels)]: the edges are the quantiles of [x] at
    [0, 1/q, ..., 1]. *)
Definition qcut (x : list cell) (q : nat) (labels : list string)
  : exn + list (option string) :=
  let quantiles := linspace01 q in
  let bins := map (fun p => quantile p x) quantiles in
  bins_to_cuts x bins labels.

(* ================================================================= *)
(** ** normalize_and_discretize *)

(** [(df[price_col] - mean) / std], for one cell. *)
Definition zscore (mean : cell) (std : rcell) (v : cell) : rcell :=
  rdiv (option_map Q2R (fsub v mean)) std.

(** Both column assignments are made on the frame that was passed in, and
    that same frame is returned. *)
Definition normalize_and_discretize (df : ref) (price_col : numcol) : M ref :=
  d <- get_frame df ;;
  let mean := mean (column price_col d) in
  let std := std 0 (column price_col d) in
  set_frame df
    (mkFrame (rows d) (Some (map (zscore mean std) (column price_col d))) (price_bin d)) ;;;
  d <- get_frame df ;;
  bins <- lift (qcut (column price_col d) 3 ["low"%string; "medium"%string; "high"%string]) ;;
  set_frame df (mkFrame (rows d) (price_zscore d) (Some bins)) ;;;
  ret df.

(* ================================================================= *)
(** ** descriptive_statistics *)

(** Sorting and quantiles of a real-valued column. *)
Fixpoint rinsert (x : R) (l : list R) : list R :=
  match l with
  | [] => [x]
  | y :: t => if Rle_dec x y then x :: y :: t else y :: rinsert x t
  end.

Fixpoint rsort (l : list R) : list R :=
  match l with
  | [] => []
  | x :: t => rinsert x (rsort t)
  end.

Definition rquantile (q : Q) (xs : list rcell) : rcell :=
  let s := rsort (dropna xs) in
  match s with
  | [] => None
  | _ :: _ =>
      let n := length s in
      let pos := inject_Z (Z.of_nat (n - 1)) * q in
      let j := Z.to_nat (Qfloor pos) in
      let g := pos - inject_Z (Qfloor pos) in
      let a := nth j s 0%R in
      let b := nth (Nat.min (j + 1) (n - 1)) s 0%R in
      Some (a + (b - a) * Q2R g)%R
  end.

(** [Series.min()] and [Series.max()]: missing values are skipped. *)
Definition col_min (xs : list cell) : cell :=
  fold_right (fun x acc => match acc with
                           | None => Some x
                           | Some m => Some (if Qle_bool x m then x else m)
                           end) None (dropna xs).

Definition col_max (xs : list cell) : cell :=
  fold_right (fun x acc => match acc with
                           | None => Some x
                           | Some m => Some (if Qle_bool x m then m else x)
                           end) None (dropna xs).

Definition rcol_min (xs : list rcell) : rcell :=
  fold_right (fun x acc => match acc with
                           | None => Some x
                           | Some m => Some (if Rle_dec x m then x else m)
                           end) None (dropna xs).

Definition rcol_max (xs : list rcell) : rcell :=
  fold_right (fun x acc => match acc with
                           | None => Some x
                           | Some m => Some (if Rle_dec x m then m else x)
                           end) None (dropna xs).

(** One row of [describe().T]. *)
Record Summary := mkSummary {
  s_count : nat;
  s_mean : rcell;
  s_std : rcell;
  s_min : rcell;
  s_25 : rcell;
  s_50 : rcell;
  s_75 : rcell;
  s_max : rcell
}.

(** [describe()] of a real-valued column: the standard deviation is the
    default one of pandas, [ddof=1]. *)
Definition rdescribe (xs : list rcell) : Summary :=
  mkSummary (length (dropna xs)) (rmean xs) (rstd 1 xs)
            (rcol_min xs) (rquantile (1 # 4) xs) (rquantile (1 # 2) xs)
            (rquantile (3 # 4) xs) (rcol_max xs).

(** [describe()] of a rational column. *)
Definition describe (xs : list cell) : Summary :=
  mkSummary (length (dropna xs)) (option_map Q2R (mean xs)) (std 1 xs)
            (option_map Q2R (col_min xs))
            (option_map Q2R (quantile (1 # 4) xs))
            (option_map Q2R (quantile (1 # 2) xs))
            (option_map Q2R (quantile (3 # 4) xs))
            (option_map Q2R (col_max xs)).

(** [df[numeric_cols].describe().T] for the numeric columns of the model,
    in the column order of the frame: [price], [reviews_per_month] and,
    once it has been assigned, [price_zscore]. *)
Definition descriptive_statistics (df : ref) : M (list (string * Summary)) :=
  d <- get_frame df ;;
  ret ([("price"%string, describe (column col_price d));
        ("reviews_per_month"%string, describe (column col_reviews_per_month d))]
       ++ match price_zscore d with
          | Some z => [("price_zscore"%string, rdescribe z)]
          | None => []
          end).

(* ================================================================= *)
(** ** anova_test *)

Fixpoint sinsert (x : string) (l : list string) : list string :=
  match l with
  | [] => [x]
  | y :: t => if String.leb x y then x :: y :: t else y :: sinsert x t
  end.

Fixpoint ssort (l : list string) : list string :=
  match l with
  | [] => []
  | x :: t => sinsert x (ssort t)
  end.

Definition in_group (k : string) (r : Row) : bool :=
  match neighbourhood_group r with
  | Some k' => String.eqb k k'
  | None => false
  end.

(** [df.groupby('neighbourhood_group')]: one group per distinct value of
    the key, in sorted order of the keys; rows without a key are in no
    group. *)
Definition groupby_neighbourhood_group (d : DataFrame) : list (string * list Row) :=
  let keys := ssort (nodup string_dec (dropna (map neighbourhood_group (rows d)))) in
  map (fun k => (k, filter (in_group k) (rows d))) keys.

(** The result of [scipy.stats.f_oneway]: a finite statistic with its
    p-value, or [NotFinite] where the statistic is NaN or infinite (SciPy
    warns and returns it). *)
Inductive anova_result :=
| Finite (f_stat : Q) (p_val : R)
| NotFinite.

Section Anova.

(** [scipy.special.fdtrc dfn dfd f]: the survival function of the F
    distribution with [(dfn, dfd)] degrees of freedom. *)
Variable fdtrc : nat -> nat -> Q -> R.

Definition square_of_sums (l : list Q) : Q := Qsum l * Qsum l.

Definition sum_of_squares (l : list Q) : Q := Qsum (map (fun x => x * x) l).

(** [scipy.stats.f_oneway], called with the samples as its arguments: a
    [TypeError] below two samples (its message abridged), and otherwise
    the sums of squares of the data shifted by the grand mean. *)
Definition f_oneway (samples : list (list cell)) : exn + anova_result :=
  if (length samples <? 2)%nat then
    inl (Raise "TypeError" "at least two inputs are required")
  else if existsb (fun s => existsb isna s || (length s =? 0)%nat) samples then
    inr NotFinite
  else
    let samples := map dropna samples in
    let num_groups := length samples in
    let alldata := concat samples in
    let bign := length alldata in
    let offset := Qsum alldata / Qn bign in
    let alldata := map (fun x => x - offset) alldata in
    let normalized_ss := square_of_sums alldata / Qn bign in
    let sstot := sum_of_squares alldata - normalized_ss in
    let ssbn :=
      Qsum (map (fun sample =>
                   square_of_sums (map (fun x => x - offset) sample)
                   / Qn (length sample))
                samples)
      - normalized_ss in
    let sswn := sstot - ssbn in
    let dfbn := (num_groups - 1)%nat in
    let dfwn := (bign - num_groups)%nat in
    if (dfwn =? 0)%nat then inr NotFinite
    else
      let msb := ssbn / Qn dfbn in
      let msw := sswn / Qn dfwn in
      if Qeq_bool msw 0 then inr NotFinite
      else
        let f := msb / msw in
        inr (Finite f (fdtrc dfbn dfwn f)).

Definition anova_test (df : ref) : M anova_result :=
  d <- get_frame df ;;
  let groups := map (fun g => map price (snd g)) (groupby_neighbourhood_group d) in
  lift (f_oneway groups).

End Anova.

(* ================================================================= *)
(** ** main *)

Section Main.

Variable fs : string -> option DataFrame.
Variable parse_date : string -> option Z.
Variable fdtrc : nat -> nat -> Q -> R.

(** The stages of [main], in its order, each on the frame the previous one
    returned; the plots and the two output files are left out. *)
Definition main (csv_path : string) : M (list (string * Summary) * anova_result) :=
  df <- load_data fs parse_date csv_path ;;
  df <- remove_price_outliers df col_price ;;
  df <- normalize_and_discretize df col_price ;;
  summary_stats <- descriptive_statistics df ;;
  result <- anova_test fdtrc df ;;
  ret (summary_stats, result).

End Main.

(* ================================================================= *)
(** * Notions of the specification *)

(** Linear-interpolation quantile estimation, stated on its own: [v] lies
    between two neighbouring order statistics of the values, at the
    fraction [g] of the way, where [(n-1)*q = j + g]. *)
Definition linear_quantile (q : Q) (xs : list cell) (v : Q) : Prop :=
  exists s : list Q,
    Permutation s (dropna xs) /\ Sorted Qle s /\
    exists (j : nat) (g : Q),
      (j < length s)%nat /\ 0 <= g /\ g < 1 /\
      Qn (length s - 1) * q == Qn j + g /\
      v == nth j s 0 + g * (nth (S j) s (nth j s 0) - nth j s 0).

(** The two bounds of the outlier filter, from the quartiles. *)
Definition lower_fence (q1 q3 : Q) : Q := q1 - (3 # 2) * (q3 - q1).
Definition upper_fence (q1 q3 : Q) : Q := q3 + (3 # 2) * (q3 - q1).

(** ** Fixtures *)

(** A listing with the given group and price, its other fields valid. *)
Definition listing (group : string) (p : Q) : Row :=
  mkRow (Some group) (Some "Private room"%string) NaT (Some (1 # 2)) (Some p) [].

(** A frame of listings of one group with the given prices, and no derived
    column yet. *)
Definition frame_of_prices (ps : list Q) : DataFrame :=
  mkFrame (map (listing "Brooklyn") ps) None None.

(** Three listings at 10, 20 and 30. *)
Definition three_prices : DataFrame := frame_of_prices [10; 20; 30].

(** Two listings at the same price. *)
Definition equal_prices : DataFrame := frame_of_prices [100; 100].

(** The exception [pd.qcut] raises when two of its edges coincide. *)
Definition bin_edges_error : exn := Raise "ValueError" "Bin edges must be unique".

(** Five listings whose middle prices tie; the frame is its own image
    under the outlier filter. *)
Definition tied_prices : DataFrame := frame_of_prices [10; 20; 20; 30; 40].

(** The label of a price between edges [e1 < e2], intervals closed on the
    right. *)
Definition tertile (e1 e2 : Q) (v : cell) : option string :=
  match v with
  | None => None
  | Some x =>
      Some (if Qle_bool x e1 then "low"
            else if Qle_bool x e2 then "medium"
            else "high")%string
  end.

(** The price arrays [anova_test] hands to [f_oneway], one per group. *)
Definition price_groups (d : DataFrame) : list (list cell) :=
  map (fun g => map price (snd g)) (groupby_neighbourhood_group d).







(** The prices of the example scenario of the specification. *)
Definition example_frame : DataFrame := frame_of_prices [10; 20; 20; 30; 1000].

(** A float cell holds a value equal to [v]. *)
Definition cell_is (c : cell) (v : Q) : Prop := exists x, c = Some x /\ x == v.

(** A raw table with a missing group, a missing room type and missing
    review rates. *)
Definition raw_table : DataFrame :=
  mkFrame
    [ mkRow (Some "Queens"%string) (Some "Entire home/apt"%string)
            (DateText "2019-05-21") None (Some 80) [];
      mkRow None (Some "Private room"%string) NaT (Some (1 # 4)) (Some 60) [];
      mkRow (Some "Bronx"%string) None (DateText "yesterday") None (Some 45) [];
      mkRow (Some "Bronx"%string) (Some "Shared room"%string)
            (DateText "2018-10-19") (Some 2) None [] ]
    None None.

(** A file system with that one table, and a date parser that accepts
    nothing. *)
Definition raw_fs (path : string) : option DataFrame :=
  if String.eqb path "AB_NYC_2019.csv" then Some raw_table else None.

Definition no_dates (s : string) : option Z := None.

(** What [load_data] does to one row that it keeps. *)
Definition cleaned (parse_date : string -> option Z) (r : Row) : Row :=
  mkRow (neighbourhood_group r) (room_type r)
        (to_datetime parse_date (last_review r))
        (fillna 0 (reviews_per_month r)) (price r) (other r).

(** The rows [dropna] keeps: both categorical fields present. *)
Definition has_categories (r : Row) : bool :=
  negb (isna (neighbourhood_group r)) && negb (isna (room_type r)).

(** How a row of the output of [load_data] relates to the row of the input
    it comes from: only [last_review] and a missing [reviews_per_month]
    change, and the latter becomes exactly 0. *)
Definition cleaned_from (r r' : Row) : Prop :=
  neighbourhood_group r' = neighbourhood_group r /\
  room_type r' = room_type r /\
  price r' = price r /\
  other r' = other r /\
  (reviews_per_month r = None -> reviews_per_month r' = Some 0) /\
  (forall x, reviews_per_month r = Some x -> reviews_per_month r' = Some x).

(** The squared deviations of the column, summed, as a real number. *)
Definition sum_sq_dev (m : Q) (v : list Q) : R :=
  Rsum (map (fun x => (Q2R x - Q2R m) * (Q2R x - Q2R m))%R v).

(** ** Further notions and fixtures *)

(** A row with every field the stages read: both categorical fields, the
    review rate and the price. *)
Definition complete_row (r : Row) : Prop :=
  neighbourhood_group r <> None /\ room_type r <> None /\
  reviews_per_month r <> None /\ price r <> None.

(** A frame where every listing has the same price, and one of them has
    none. *)
Definition constant_prices : DataFrame :=
  mkFrame [listing "Bronx" 75; listing "Queens" 75;
           mkRow (Some "Bronx"%string) (Some "Shared room"%string) NaT (Some 1) None [];
           listing "Bronx" 75]
          None None.

(** The frame [df[mask]] that the outlier filter builds from a frame. *)
Definition iqr_filtered (c : numcol) (d : DataFrame) : DataFrame :=
  let q1 := quantile (1 # 4) (column c d) in
  let q3 := quantile (3 # 4) (column c d) in
  let lower := fsub q1 (fmul (Some (3 # 2)) (fsub q3 q1)) in
  let upper := fadd q3 (fmul (Some (3 # 2)) (fsub q3 q1)) in
  getitem_mask (map (in_bounds lower upper) (column c d)) d.

(** The table [load_data] leaves behind and the frame it returns. *)
Definition parsed_table (parse_date : string -> option Z) (t : DataFrame) : DataFrame :=
  mkFrame (map (cleaned parse_date) (rows t)) (price_zscore t) (price_bin t).

Definition loaded (parse_date : string -> option Z) (t : DataFrame) : DataFrame :=
  dropna_subset (parsed_table parse_date t).

(** A cell of [last_review] that is no longer text. *)
Definition is_datetime (c : date_cell) : Prop :=
  match c with
  | DateText _ => False
  | _ => True
  end.

(** A date parser for the fixtures: it accepts one date. *)
Definition one_date (s : string) : option Z :=
  if String.eqb s "2019-05-21" then Some 1558396800%Z else None.

(** The table [descriptive_statistics] returns for a frame. *)
Definition summary_table (d : DataFrame) : list (string * Summary) :=
  [("price"%string, describe (column col_price d));
   ("reviews_per_month"%string, describe (column col_reviews_per_month d))]
  ++ match price_zscore d with
     | Some z => [("price_zscore"%string, rdescribe z)]
     | None => []
     end.

(** The labels [normalize_and_discretize] passes to [pd.qcut]. *)
Definition bin_labels : list string := ["low"%string; "medium"%string; "high"%string].

(** The frame [main] hands to the feature deriver, and its z-scores. *)
Definition main_filtered (parse_date : string -> option Z) (t : DataFrame) : DataFrame :=
  iqr_filtered col_price (loaded parse_date t).

Definition zscores (c : numcol) (d : DataFrame) : list rcell :=
  map (zscore (mean (column c d)) (std 0 (column c d))) (column c d).

(** A file with a single listing. *)
Definition single_listing_fs (path : string) : option DataFrame :=
  if String.eqb path "one.csv" then Some (frame_of_prices [120]) else None.

(** A p-value function for the fixtures. *)
Definition no_pvalue (dfn dfd : nat) (f : Q) : R := 0%R.

(** Nine listings of which seven share the lowest price. *)
Definition skewed_prices : DataFrame := frame_of_prices [1; 1; 1; 1; 1; 1; 1; 2; 3].



(** The rows that [groupby] puts in some group: those with a key. *)
Definition has_group (r : Row) : bool := negb (isna (neighbourhood_group r)).

(** Listings of three groups, one of them without a group. *)
Definition mixed_groups : DataFrame :=
  mkFrame [listing "Queens" 80; listing "Bronx" 45;
           mkRow None (Some "Private room"%string) NaT (Some 1) (Some 60) [];
           listing "Queens" 95; listing "Brooklyn" 120]
          None None.



(** ** Notions of the amended claims *)

(** The label of a price against the inner edges [e1 < e2].  A price that
    sits on an inner edge may get either of the two neighbouring labels:
    in exact arithmetic it gets the lower one, in binary64 the edge can
    come out one rounding below the price. *)
Definition tertile_label (e1 e2 : Q) (v : cell) (b : option string) : Prop :=
  match v with
  | None => b = None
  | Some x =>
      (x < e1 -> b = Some "low"%string) /\
      (x == e1 -> b = Some "low"%string \/ b = Some "medium"%string) /\
      (e1 < x /\ x < e2 -> b = Some "medium"%string) /\
      (x == e2 -> b = Some "medium"%string \/ b = Some "high"%string) /\
      (e2 < x -> b = Some "high"%string)
  end.

(** An entry of [price_bin]: no label for a missing price, one of the three
    labels for a price. *)
Definition labelled (v : cell) (b : option string) : Prop :=
  match v with
  | None => b = None
  | Some _ => In b (map Some bin_labels)
  end.

(** An entry of [price_zscore]: the deviation of the price from [m],
    divided by [sd]; NaN for a missing price. *)
Definition standardised (m : Q) (sd : R) (p : cell) (zc : rcell) : Prop :=
  match p with
  | Some x => zc = Some ((Q2R x - Q2R m) / sd)%R
  | None => zc = None
  end.

(* ================================================================= *)
(** * Binary64 *)

(** ** Numbers that binary64 holds exactly *)

(** A whole number of magnitude at most [bound]. *)
Definition whole_within (bound : Z) (x : Q) : bool :=
  (Qnum x mod Z.pos (Qden x) =? 0)%Z
  && (Z.abs (Qnum x / Z.pos (Qden x)) <=? bound)%Z.

(** A column whose values are all such numbers; it may have missing
    values. *)
Definition whole_column (bound : Z) (xs : list cell) : Prop :=
  Forall (fun x => whole_within bound x = true) (dropna xs).


(** ** The outlier filter on doubles *)

(** The value of a double as a rational; NaN and the infinities have
    none. *)
Definition F2Q (x : float) : cell :=
  match Prim2SF x with
  | S754_zero _ => Some 0
  | S754_finite s m e => Some (inject_Z (if s then Z.neg m else Z.pos m) * Qpower 2 e)
  | _ => None
  end.

(** A count as a double (exact below [2^53]). *)
Fixpoint float_of_nat (n : nat) : float :=
  match n with
  | O => 0%float
  | S k => (float_of_nat k + 1)%float
  end.

(** [floor] of a double that is not negative. *)
Definition floor64 (x : float) : nat :=
  match Prim2SF x with
  | S754_finite false m e => Z.to_nat (Z.shiftl (Z.pos m) e)
  | _ => 0%nat
  end.

Fixpoint insert64 (x : float) (l : list float) : list float :=
  match l with
  | [] => [x]
  | y :: t => if (x <=? y)%float then x :: y :: t else y :: insert64 x t
  end.

Fixpoint sort64 (l : list float) : list float :=
  match l with
  | [] => []
  | x :: t => insert64 x (sort64 t)
  end.

(** [Series.quantile(q)] as the machine computes it.  pandas hands numpy
    the percentage [q * 100], which numpy divides by 100 again; the
    position is [(n-1) * q]; and numpy's interpolation is
    [a + (b - a) * g] below [g = 0.5] and [b - (b - a) * (1 - g)] from
    there on. *)
Definition quantile64 (q : float) (xs : list float) : float :=
  let s := sort64 (filter (fun x => negb (PrimFloat.is_nan x)) xs) in
  match s with
  | [] => nan
  | _ :: _ =>
      let n := length s in
      let q := (q * 100 / 100)%float in
      let pos := (float_of_nat (n - 1) * q)%float in
      let j := floor64 pos in
      let g := (pos - float_of_nat j)%float in
      let a := nth j s nan in
      let b := nth (Nat.min (j + 1) (n - 1)) s nan in
      if (0x1p-1 <=? g)%float then (b - (b - a) * (1 - g))%float
      else (a + (b - a) * g)%float
  end.

(** Lines 58 to 63 of the script on a column of doubles: the mask
    [(df[price_col] >= lower_bound) & (df[price_col] <= upper_bound)]. *)
Definition outlier_mask64 (xs : list float) : list bool :=
  let q1 := quantile64 0x1p-2%float xs in
  let q3 := quantile64 0x1.8p-1%float xs in
  let iqr := (q3 - q1)%float in
  let lower_bound := (q1 - 0x1.8p0 * iqr)%float in
  let upper_bound := (q3 + 0x1.8p0 * iqr)%float in
  map (fun v => (lower_bound <=? v)%float && (v <=? upper_bound)%float) xs.

(** [Series.mean()] on doubles, none of them missing: the sum, taken left
    to right, over the count. *)
Definition mean64 (xs : list float) : float :=
  (fold_left PrimFloat.add xs 0 / float_of_nat (length xs))%float.



(* ================================================================= *)
(** * Properties *)

(** ** The store *)

Lemma nth_error_snoc (s : store) (d : DataFrame) :
  nth_error (s ++ [d]) (length s) = Some d.
Proof.
  rewrite nth_error_app2 by lia. now rewrite Nat.sub_diag.
Qed.

Lemma nth_error_snoc2 (s : store) (a b : DataFrame) :
  nth_error (s ++ [a; b]) (S (length s)) = Some b.
Proof.
  rewrite nth_error_app2 by lia.
  replace (S (length s) - length s)%nat with 1%nat by lia. reflexivity.
Qed.

Lemma nth_error_update_same (s : store) (l : ref) (d d' : DataFrame) :
  nth_error s l = Some d -> nth_error (update l d' s) l = Some d'.
Proof.
  revert l; induction s as [|x s IH]; intros [|l] H; simpl in *; try discriminate; auto.
Qed.

Lemma nth_error_update_other (s : store) (l l' : ref) (d' : DataFrame) :
  l <> l' -> nth_error (update l d' s) l' = nth_error s l'.
Proof.
  revert l l'; induction s as [|x s IH]; intros [|l] [|l'] H; simpl; auto; try lia.
Qed.

Lemma update_update (s : store) (l : ref) (d d' : DataFrame) :
  update l d' (update l d s) = update l d' s.
Proof.
  revert l; induction s as [|x s IH]; intros [|l]; simpl; auto. now rewrite IH.
Qed.

Lemma length_update (s : store) (l : ref) (d : DataFrame) :
  length (update l d s) = length s.
Proof.
  revert l; induction s as [|x s IH]; intros [|l]; simpl; auto.
Qed.

(** ** Masks *)

Lemma select_map_filter {A} (p : A -> bool) (l : list A) :
  select (map p l) l = filter p l.
Proof.
  induction l as [|x l IH]; simpl; auto. destruct (p x); now rewrite IH.
Qed.

Lemma select_map_map_filter {A B} (f : A -> B) (p : B -> bool) (l : list A) :
  select (map p (map f l)) l = filter (fun x => p (f x)) l.
Proof.
  rewrite map_map. apply select_map_filter.
Qed.

(** ** Sorting *)

Lemma insert_perm (x : Q) (l : list Q) : Permutation (insert x l) (x :: l).
Proof.
  induction l as [|y l IH]; simpl; auto.
  destruct (Qle_bool x y); auto.
  rewrite IH. apply perm_swap.
Qed.

Lemma sort_perm (l : list Q) : Permutation (sort l) l.
Proof.
  induction l as [|x l IH]; simpl; auto.
  rewrite insert_perm. now constructor.
Qed.

Lemma insert_sorted (x : Q) (l : list Q) :
  Sorted Qle l -> Sorted Qle (insert x l).
Proof.
  induction l as [|y l IH]; intros H; simpl.
  - repeat constructor.
  - destruct (Qle_bool x y) eqn:E.
    + constructor; auto. constructor. now apply Qle_bool_iff.
    + assert (Hyx : y <= x).
      { destruct (Qlt_le_dec y x) as [L|L]; [now apply Qlt_le_weak|].
        apply Qle_bool_iff in L. congruence. }
      inversion H as [|a b Hs Hh]; subst.
      constructor; auto.
      destruct l as [|z l]; simpl.
      * now constructor.
      * destruct (Qle_bool x z); constructor; auto.
        inversion Hh; auto.
Qed.

Lemma sort_sorted (l : list Q) : Sorted Qle (sort l).
Proof.
  induction l as [|x l IH]; simpl; [constructor | now apply insert_sorted].
Qed.

Lemma sort_length (l : list Q) : length (sort l) = length l.
Proof. apply Permutation_length, sort_perm. Qed.

(** In a sorted list the entries grow with the position. *)
Lemma strongly_sorted_nth (s : list Q) :
  StronglySorted Qle s ->
  forall i j, (i <= j < length s)%nat -> nth i s 0 <= nth j s 0.
Proof.
  induction 1 as [|a s Hs IH Ha]; intros i j Hij; simpl in *; [lia|].
  destruct i as [|i], j as [|j]; try lia.
  - apply Qle_refl.
  - rewrite Forall_forall in Ha. apply Ha, nth_In. lia.
  - apply IH. lia.
Qed.

(** ** The quantile is the linear-interpolation quantile *)

Lemma Qn_le (a b : nat) : (a <= b)%nat -> Qn a <= Qn b.
Proof.
  intros H. unfold Qn. rewrite <- Zle_Qle. lia.
Qed.

Lemma quantile_linear (q : Q) (xs : list cell) :
  0 <= q -> q <= 1 -> dropna xs <> [] ->
  exists v, quantile q xs = Some v /\ linear_quantile q xs v.
Proof.
  intros Hq0 Hq1 Hne.
  unfold quantile.
  pose proof (sort_length (dropna xs)) as Hlen.
  destruct (sort (dropna xs)) as [|a s'] eqn:Es.
  { destruct (dropna xs); [congruence | discriminate]. }
  rewrite <- Es in *. clear Hlen.
  set (s := sort (dropna xs)) in *.
  assert (Hn : (1 <= length s)%nat) by (rewrite Es; simpl; lia).
  set (n := length s) in *.
  set (pos := inject_Z (Z.of_nat (n - 1)) * q).
  assert (Hpos0 : 0 <= pos).
  { unfold pos. apply Qmult_le_0_compat; auto.
    change 0 with (inject_Z 0). rewrite <- Zle_Qle. lia. }
  assert (Hpos1 : pos <= inject_Z (Z.of_nat (n - 1))).
  { assert (H0 : 0 <= inject_Z (Z.of_nat (n - 1))).
    { change 0 with (inject_Z 0). rewrite <- Zle_Qle. lia. }
    unfold pos. nra. }
  assert (Hf0 : (0 <= Qfloor pos)%Z).
  { change 0%Z with (Qfloor (inject_Z 0)) at 1. rewrite Qfloor_Z.
    rewrite <- (Qfloor_Z 0). now apply Qfloor_resp_le. }
  assert (Hf1 : (Qfloor pos <= Z.of_nat (n - 1))%Z).
  { rewrite <- (Qfloor_Z (Z.of_nat (n - 1))). now apply Qfloor_resp_le. }
  set (j := Z.to_nat (Qfloor pos)).
  assert (Hj : (j <= n - 1)%nat) by (unfold j; lia).
  assert (HQj : Qn j = inject_Z (Qfloor pos)).
  { unfold Qn, j. now rewrite Z2Nat.id. }
  eexists; split; [rewrite Es; reflexivity|].
  rewrite <- Es. fold n.
  exists s. split; [apply sort_perm|]. split; [apply sort_sorted|].
  exists j, (pos - inject_Z (Qfloor pos)).
  split; [fold n; lia|].
  split.
  { pose proof (Qfloor_le pos). lra. }
  split.
  { pose proof (Qlt_floor pos) as L. rewrite inject_Z_plus in L.
    change (inject_Z 1) with 1 in L. lra. }
  split.
  { fold n. rewrite HQj. unfold Qn. fold pos. ring. }
  fold pos j.
  assert (Hb : nth (Nat.min (j + 1) (n - 1)) s 0 = nth (S j) s (nth j s 0)).
  { destruct (Nat.eq_dec j (n - 1)) as [E|E].
    - rewrite (nth_overflow s (nth j s 0)) by (fold n; lia).
      f_equal. lia.
    - replace (Nat.min (j + 1) (n - 1)) with (S j) by lia.
      apply nth_indep. fold n. lia. }
  rewrite Hb. ring.
Qed.

(** ** remove_price_outliers *)

(** What a run of the filter does to the store. *)
Lemma remove_price_outliers_run (s : store) (df : ref) (d : DataFrame) (c : numcol) :
  nth_error s df = Some d ->
  let q1 := quantile (1 # 4) (column c d) in
  let q3 := quantile (3 # 4) (column c d) in
  let lower := fsub q1 (fmul (Some (3 # 2)) (fsub q3 q1)) in
  let upper := fadd q3 (fmul (Some (3 # 2)) (fsub q3 q1)) in
  let out := getitem_mask (map (in_bounds lower upper) (column c d)) d in
  remove_price_outliers df c s = (inr (S (length s)), s ++ [out; out]).
Proof.
  intros H. cbv zeta.
  unfold remove_price_outliers, bind, get_frame, new_frame, ret.
  rewrite H. rewrite nth_error_snoc.
  rewrite length_app, <- app_assoc. simpl. f_equal. f_equal. lia.
Qed.

Lemma rows_getitem_mask_column (p : cell -> bool) (c : numcol) (d : DataFrame) :
  rows (getitem_mask (map p (column c d)) d) = filter (fun r => p (getcol c r)) (rows d).
Proof.
  unfold getitem_mask, column. simpl. apply select_map_map_filter.
Qed.


Lemma filter_all_false {A} (p : A -> bool) (l : list A) :
  (forall x, p x = false) -> filter p l = [].
Proof.
  intros H. induction l as [|x l IH]; simpl; auto. now rewrite H.
Qed.

Lemma quantile_none (q : Q) (xs : list cell) :
  dropna xs = [] -> quantile q xs = None.
Proof.
  intros H. unfold quantile. now rewrite H.
Qed.

(** ** Order and the quantile *)

Lemma Qle_bool_spec (x y : Q) : reflect (x <= y) (Qle_bool x y).
Proof.
  apply iff_reflect. symmetry. apply Qle_bool_iff.
Qed.

Lemma Qeq_bool_gt (a b : Q) : a < b -> Qeq_bool b a = false.
Proof.
  intros H. destruct (Qeq_bool b a) eqn:E; auto.
  apply Qeq_bool_iff in E. lra.
Qed.

Lemma Qn_S (n : nat) : Qn (S n) == Qn n + 1.
Proof.
  unfold Qn. rewrite Nat2Z.inj_succ, <- Z.add_1_r, inject_Z_plus. reflexivity.
Qed.

Lemma Qn_zero_inv (n : nat) : Qn n == 0 -> n = 0%nat.
Proof.
  unfold Qn, Qeq. simpl. lia.
Qed.

Lemma Qn_nonneg (n : nat) : 0 <= Qn n.
Proof.
  change 0 with (Qn 0). apply Qn_le. lia.
Qed.

Lemma Qn_lt_inv (a b : nat) : Qn a < Qn b + 1 -> (a <= b)%nat.
Proof.
  rewrite <- Qn_S. unfold Qn. rewrite <- Zlt_Qlt. lia.
Qed.

(** The quantile, read on the sorted values: the position [(n-1)*q] splits
    into the index [j] and the fraction [g], and the value is taken
    between the order statistics [j] and [j+1] (the last one when [j] is
    the last index). *)
Lemma quantile_at (q : Q) (xs : list cell) :
  0 <= q -> q <= 1 -> dropna xs <> [] ->
  exists (j : nat) (g : Q),
    (j < length (sort (dropna xs)))%nat /\
    0 <= g /\ g < 1 /\
    Qn (length (sort (dropna xs)) - 1) * q == Qn j + g /\
    quantile q xs
    = Some (nth j (sort (dropna xs)) 0
            + (nth (Nat.min (j + 1) (length (sort (dropna xs)) - 1)) (sort (dropna xs)) 0
               - nth j (sort (dropna xs)) 0) * g).
Proof.
  intros Hq0 Hq1 Hne.
  unfold quantile.
  pose proof (sort_length (dropna xs)) as Hlen.
  destruct (sort (dropna xs)) as [|a s'] eqn:Es.
  { destruct (dropna xs); [congruence | discriminate]. }
  rewrite <- Es in *. clear Hlen.
  set (s := sort (dropna xs)) in *.
  assert (Hn : (1 <= length s)%nat) by (rewrite Es; simpl; lia).
  set (n := length s) in *.
  set (pos := inject_Z (Z.of_nat (n - 1)) * q).
  pose proof (Qn_nonneg (n - 1)) as HN0. unfold Qn in HN0.
  assert (Hpos0 : 0 <= pos) by (unfold pos; now apply Qmult_le_0_compat).
  assert (Hpos1 : pos <= inject_Z (Z.of_nat (n - 1))) by (unfold pos; nra).
  assert (Hf0 : (0 <= Qfloor pos)%Z).
  { rewrite <- (Qfloor_Z 0). now apply Qfloor_resp_le. }
  assert (Hf1 : (Qfloor pos <= Z.of_nat (n - 1))%Z).
  { rewrite <- (Qfloor_Z (Z.of_nat (n - 1))). now apply Qfloor_resp_le. }
  exists (Z.to_nat (Qfloor pos)), (pos - inject_Z (Qfloor pos)).
  split; [lia|].
  split; [pose proof (Qfloor_le pos); lra|].
  split.
  { pose proof (Qlt_floor pos) as L. rewrite inject_Z_plus in L.
    change (inject_Z 1) with 1 in L. lra. }
  split; [|rewrite Es; reflexivity].
  unfold Qn. rewrite Z2Nat.id by exact Hf0. fold pos. ring.
Qed.

(** Consecutive order statistics do not decrease. *)
Lemma sort_nth_le (l : list Q) (i j : nat) :
  (i <= j < length (sort l))%nat -> nth i (sort l) 0 <= nth j (sort l) 0.
Proof.
  apply strongly_sorted_nth.
  apply Sorted_StronglySorted; [exact Qle_trans | apply sort_sorted].
Qed.

Lemma Qmult_le_mono_l (d g g' : Q) : 0 <= d -> g <= g' -> d * g <= d * g'.
Proof.
  intros Hd Hg. rewrite (Qmult_comm d g), (Qmult_comm d g').
  now apply Qmult_le_compat_r.
Qed.

(** A quantile at a lower level is not above one at a higher level. *)
Lemma quantile_monotone (p q : Q) (xs : list cell) (a b : Q) :
  0 <= p -> p <= q -> q <= 1 ->
  quantile p xs = Some a -> quantile q xs = Some b -> a <= b.
Proof.
  intros Hp0 Hpq Hq1 Ha Hb.
  assert (Hne : dropna xs <> []).
  { intros E. rewrite (quantile_none _ _ E) in Ha. discriminate. }
  destruct (quantile_at p xs) as (j & g & Hj & Hg0 & Hg1 & Hpos & Ea); auto; [lra|].
  destruct (quantile_at q xs) as (j' & g' & Hj' & Hg0' & Hg1' & Hpos' & Eb); auto; [lra|].
  rewrite Ea in Ha. rewrite Eb in Hb.
  injection Ha as <-. injection Hb as <-.
  set (s := sort (dropna xs)) in *. set (n := length s) in *.
  pose proof (Qn_nonneg (n - 1)) as HN.
  assert (Hle : Qn j + g <= Qn j' + g').
  { rewrite <- Hpos, <- Hpos'. now apply Qmult_le_mono_l. }
  assert (Hjj : (j <= j')%nat) by (apply Qn_lt_inv; lra).
  assert (Hd : 0 <= nth (Nat.min (j + 1) (n - 1)) s 0 - nth j s 0).
  { pose proof (sort_nth_le (dropna xs) j (Nat.min (j + 1) (n - 1))) as L.
    fold s n in L. specialize (L ltac:(lia)). lra. }
  assert (Hd' : 0 <= nth (Nat.min (j' + 1) (n - 1)) s 0 - nth j' s 0).
  { pose proof (sort_nth_le (dropna xs) j' (Nat.min (j' + 1) (n - 1))) as L.
    fold s n in L. specialize (L ltac:(lia)). lra. }
  destruct (Nat.eq_dec j j') as [E|E].
  - subst j'. assert (Hgg : g <= g') by lra.
    pose proof (Qmult_le_mono_l _ _ _ Hd Hgg) as L.
    rewrite (Qmult_comm _ g), (Qmult_comm _ g'). lra.
  - assert (Hlt : (j + 1 <= j')%nat) by lia.
    replace (Nat.min (j + 1) (n - 1)) with (j + 1)%nat in * by lia.
    pose proof (sort_nth_le (dropna xs) (j + 1) j') as L.
    fold s n in L. specialize (L ltac:(lia)).
    pose proof (Qmult_le_mono_l _ g 1 Hd ltac:(lra)) as L1.
    pose proof (Qmult_le_0_compat _ _ Hd' Hg0') as L2.
    rewrite (Qmult_comm _ g). lra.
Qed.

Lemma quantile_some (q : Q) (xs : list cell) :
  0 <= q -> q <= 1 -> dropna xs <> [] -> exists v, quantile q xs = Some v.
Proof.
  intros H0 H1 Hne.
  destruct (quantile_at q xs H0 H1 Hne) as (j & g & _ & _ & _ & _ & E). eauto.
Qed.

(** A quantile lies between any two bounds of the values. *)
Lemma quantile_between (q lo hi v : Q) (xs : list cell) :
  0 <= q -> q <= 1 ->
  (forall x, In x (dropna xs) -> lo <= x /\ x <= hi) ->
  quantile q xs = Some v -> lo <= v /\ v <= hi.
Proof.
  intros Hq0 Hq1 Hall Hv.
  assert (Hne : dropna xs <> []).
  { intros E. rewrite (quantile_none _ _ E) in Hv. discriminate. }
  destruct (quantile_at q xs Hq0 Hq1 Hne) as (j & g & Hj & Hg0 & Hg1 & _ & E).
  rewrite E in Hv. injection Hv as <-.
  set (s := sort (dropna xs)) in *. set (n := length s) in *.
  assert (Hin : forall i, (i < n)%nat -> lo <= nth i s 0 /\ nth i s 0 <= hi).
  { intros i Hi. apply Hall. apply (Permutation_in _ (sort_perm _)). now apply nth_In. }
  destruct (Hin j Hj) as [A1 A2].
  destruct (Hin (Nat.min (j + 1) (n - 1)) ltac:(lia)) as [B1 B2].
  assert (Hd : 0 <= nth (Nat.min (j + 1) (n - 1)) s 0 - nth j s 0).
  { pose proof (sort_nth_le (dropna xs) j (Nat.min (j + 1) (n - 1))) as L.
    fold s n in L. specialize (L ltac:(lia)). lra. }
  pose proof (Qmult_le_0_compat _ _ Hd Hg0) as L0.
  pose proof (Qmult_le_mono_l _ g 1 Hd ltac:(lra)) as L1.
  rewrite (Qmult_comm _ g). split; lra.
Qed.

(** ** Whole numbers and binary64 *)

Lemma whole_within_spec (B : Z) (x : Q) :
  whole_within B x = true ->
  exists z : Z, x == inject_Z z /\ (Z.abs z <= B)%Z.
Proof.
  unfold whole_within. intros H. apply andb_true_iff in H. destruct H as [Hm Hb].
  apply Z.eqb_eq in Hm. apply Z.leb_le in Hb.
  exists (Qnum x / Z.pos (Qden x))%Z. split; [|exact Hb].
  unfold Qeq, inject_Z. cbn [Qnum Qden].
  pose proof (Z_div_mod_eq_full (Qnum x) (Z.pos (Qden x))). lia.
Qed.

Lemma whole_column_In (B : Z) (xs : list cell) (x : Q) :
  whole_column B xs -> In x (dropna xs) ->
  exists z : Z, x == inject_Z z /\ (Z.abs z <= B)%Z.
Proof.
  intros H Hin. apply whole_within_spec.
  exact (proj1 (Forall_forall _ _) H x Hin).
Qed.




Lemma Qmake_den (i : Z) (den : positive) :
  inject_Z (Z.pos den) * (i # den) == inject_Z i.
Proof.
  unfold Qeq, Qmult, inject_Z. cbn [Qnum Qden]. lia.
Qed.

(** On a column of whole numbers a quantile at the level [i/den] is a
    multiple of [1/den], and no larger than the values are. *)
Lemma quantile_grid (i : Z) (den : positive) (B : Z) (xs : list cell) (v : Q) :
  (0 <= i <= Z.pos den)%Z ->
  whole_column B xs ->
  quantile (i # den) xs = Some v ->
  exists k : Z,
    inject_Z (Z.pos den) * v == inject_Z k /\ (Z.abs k <= Z.pos den * B)%Z.
Proof.
  intros Hi Hw Hv.
  assert (Hq0 : 0 <= i # den) by (unfold Qle; simpl; lia).
  assert (Hq1 : i # den <= 1) by (unfold Qle; simpl; lia).
  assert (Hne : dropna xs <> []).
  { intros E. rewrite (quantile_none _ _ E) in Hv. discriminate. }
  assert (Hall : forall x, In x (dropna xs) -> inject_Z (- B) <= x /\ x <= inject_Z B).
  { intros x Hx. destruct (whole_column_In _ _ _ Hw Hx) as (z & -> & Hz).
    rewrite <- !Zle_Qle. lia. }
  destruct (quantile_between _ _ _ _ _ Hq0 Hq1 Hall Hv) as [Hlo Hhi].
  destruct (quantile_at (i # den) xs Hq0 Hq1 Hne) as (j & g & Hj & Hg0 & Hg1 & Hpos & E).
  rewrite E in Hv. injection Hv as Hv.
  set (s := sort (dropna xs)) in *. set (n := length s) in *.
  assert (Hin : forall t, (t < n)%nat -> In (nth t s 0) (dropna xs)).
  { intros t Ht. apply (Permutation_in _ (sort_perm _)). now apply nth_In. }
  destruct (whole_column_In _ _ _ Hw (Hin j Hj)) as (za & Ea & _).
  destruct (whole_column_In _ _ _ Hw (Hin (Nat.min (j + 1) (n - 1)) ltac:(lia)))
    as (zb & Eb & _).
  set (D := inject_Z (Z.pos den)) in *.
  assert (HD : 0 < D) by (unfold D; change 0 with (inject_Z 0); rewrite <- Zlt_Qlt; lia).
  set (zg := (Z.of_nat (n - 1) * i - Z.pos den * Z.of_nat j)%Z).
  assert (Eg : D * g == inject_Z zg).
  { unfold zg, Z.sub. rewrite inject_Z_plus, inject_Z_opp, !inject_Z_mult. fold D.
    assert (Eg' : g == Qn (n - 1) * (i # den) - Qn j) by lra.
    rewrite Eg'. unfold Qn.
    pose proof (Qmake_den i den) as Hm. fold D in Hm.
    rewrite <- Hm. ring. }
  exists (Z.pos den * za + (zb - za) * zg)%Z.
  assert (Ek : D * v == inject_Z (Z.pos den * za + (zb - za) * zg)).
  { unfold Z.sub. rewrite inject_Z_plus, !inject_Z_mult, inject_Z_plus, inject_Z_opp.
    fold D. rewrite <- Eg, <- Ea, <- Eb, <- Hv. ring. }
  split; [exact Ek|].
  assert (H1 : inject_Z (Z.pos den * za + (zb - za) * zg) <= inject_Z (Z.pos den * B)).
  { rewrite <- Ek, inject_Z_mult. fold D. apply Qmult_le_mono_l; lra. }
  assert (H2 : inject_Z (- (Z.pos den * B)) <= inject_Z (Z.pos den * za + (zb - za) * zg)).
  { rewrite <- Ek. replace (- (Z.pos den * B))%Z with (Z.pos den * - B)%Z by lia.
    rewrite inject_Z_mult. fold D. apply Qmult_le_mono_l; lra. }
  rewrite <- Zle_Qle in H1, H2. lia.
Qed.

(** Two numbers on the grid of thirds that differ are at least a third
    apart. *)
Lemma thirds_gap (a b : Q) (ka kb : Z) :
  3 * a == inject_Z ka -> 3 * b == inject_Z kb -> a < b -> a + (1 # 3) <= b.
Proof.
  intros Ea Eb L.
  assert (H : inject_Z ka < inject_Z kb) by lra.
  rewrite <- Zlt_Qlt in H.
  assert (H1 : inject_Z (ka + 1) <= inject_Z kb) by (rewrite <- Zle_Qle; lia).
  rewrite inject_Z_plus in H1. change (inject_Z 1) with 1 in H1. lra.
Qed.

(** ** The outlier filter *)

(** On the prices of the example of the specification the doubles give
    the mask of the exact model. *)
Lemma outlier_mask64_example :
  outlier_mask64 (map float_of_nat [10; 20; 20; 30; 1000]%nat)
  = [true; true; true; true; false] /\
  forallb (fun p => cell_eqb (fst p) (snd p))
          (combine (map F2Q (map float_of_nat [10; 20; 20; 30; 1000]%nat))
                   (column col_price example_frame)) = true.
Proof.
  split; vm_compute; reflexivity.
Qed.




(** C8.  On the prices [10, 20, 20, 30, 1000] the filter computes
    [Q1 = 20], [Q3 = 30], [IQR = 10] and the upper bound [45]; it removes
    exactly the row with price 1000 and returns a frame of 4 rows. *)
Theorem remove_price_outliers_example :
  cell_is (quantile (1 # 4) (column col_price example_frame)) 20 /\
  cell_is (quantile (3 # 4) (column col_price example_frame)) 30 /\
  cell_is (fsub (quantile (3 # 4) (column col_price example_frame))
                (quantile (1 # 4) (column col_price example_frame))) 10 /\
  cell_is (fadd (quantile (3 # 4) (column col_price example_frame))
                (fmul (Some (3 # 2))
                      (fsub (quantile (3 # 4) (column col_price example_frame))
                            (quantile (1 # 4) (column col_price example_frame))))) 45 /\
  remove_price_outliers 0%nat col_price [example_frame]
  = (inr 2%nat, [example_frame;
                 frame_of_prices [10; 20; 20; 30];
                 frame_of_prices [10; 20; 20; 30]]) /\
  length (rows (frame_of_prices [10; 20; 20; 30])) = 4%nat.
Proof.
  repeat split; try (eexists; split; [vm_compute; reflexivity | reflexivity]).
Qed.

(** C10.  A row whose value in the filtered column is missing never passes
    the mask of the outlier filter, whatever the bounds are: the rows of
    the returned frame are the rows of the input selected by a test that is
    false on every missing value, so none of them has a missing value. *)
Theorem remove_price_outliers_drops_missing
  (s : store) (df : ref) (d : DataFrame) (c : numcol) :
  nth_error s df = Some d ->
  exists (out : DataFrame) (keep : cell -> bool),
    remove_price_outliers df c s = (inr (S (length s)), s ++ [out; out]) /\
    rows out = filter (fun r => keep (getcol c r)) (rows d) /\
    keep None = false /\
    (forall r, In r (rows d) -> getcol c r = None -> ~ In r (rows out)) /\
    Forall (fun r => getcol c r <> None) (rows out).
Proof.
  intros H. eexists. eexists.
  split; [apply (remove_price_outliers_run _ _ _ _ H)|].
  split; [apply rows_getitem_mask_column|].
  split; [reflexivity|].
  rewrite rows_getitem_mask_column. split.
  - intros r _ E Hin. apply filter_In in Hin. rewrite E in Hin.
    destruct Hin as [_ Hin]. discriminate.
  - apply Forall_forall. intros r Hin E. apply filter_In in Hin.
    rewrite E in Hin. destruct Hin as [_ Hin]. discriminate.
Qed.

Lemma remove_price_outliers_drops_missing_witness :
  nth_error [raw_table] 0%nat = Some raw_table /\
  exists out : DataFrame,
    remove_price_outliers 0%nat col_price [raw_table]
    = (inr 2%nat, [raw_table] ++ [out; out]) /\
    Forall (fun r => price r <> None) (rows out).
Proof.
  split; [reflexivity|].
  destruct (remove_price_outliers_drops_missing [raw_table] 0%nat raw_table
              col_price eq_refl)
    as (out & keep & Hrun & _ & _ & _ & Hall).
  exists out. split; [exact Hrun | exact Hall].
Defined.

(** ** load_data *)

Lemma update_snoc (s : store) (d d' : DataFrame) :
  update (length s) d' (s ++ [d]) = s ++ [d'].
Proof.
  induction s as [|x s IH]; simpl; auto. now rewrite IH.
Qed.

Lemma filter_map_comm {A B} (f : A -> B) (p : B -> bool) (l : list A) :
  filter p (map f l) = map f (filter (fun x => p (f x)) l).
Proof.
  induction l as [|x l IH]; simpl; auto.
  destruct (p (f x)); simpl; now rewrite IH.
Qed.

Lemma load_data_run (fs : string -> option DataFrame) (parse_date : string -> option Z)
  (file_path : string) (s : store) (t : DataFrame) :
  fs file_path = Some t ->
  let mid := mkFrame (map (cleaned parse_date) (rows t)) (price_zscore t) (price_bin t) in
  load_data fs parse_date file_path s
  = (inr (S (length s)), s ++ [mid; dropna_subset mid]).
Proof.
  intros H. cbv zeta.
  unfold load_data, read_csv, bind, get_frame, set_frame, new_frame, ret.
  rewrite H. rewrite nth_error_snoc. rewrite update_snoc.
  rewrite nth_error_snoc. rewrite update_snoc. rewrite nth_error_snoc.
  cbn [rows price_zscore price_bin]. rewrite map_map.
  rewrite length_app, <- app_assoc. simpl. f_equal.
  - f_equal. lia.
Qed.

Lemma rows_dropna_subset (d : DataFrame) :
  rows (dropna_subset d) = filter has_categories (rows d).
Proof.
  unfold dropna_subset, getitem_mask. simpl. apply select_map_filter.
Qed.

(** C2.  [load_data] returns a new frame in which no row has a missing
    [neighbourhood_group] or [room_type] and no [reviews_per_month] is
    missing; its rows are, in order, the rows of the table that have both
    categorical fields, and a [reviews_per_month] that was missing in the
    table is exactly 0 in the output. *)
Theorem load_data_clean (fs : string -> option DataFrame)
  (parse_date : string -> option Z) (file_path : string) (s : store) (t : DataFrame) :
  fs file_path = Some t ->
  exists mid out : DataFrame,
    load_data fs parse_date file_path s = (inr (S (length s)), s ++ [mid; out]) /\
    Forall (fun r => neighbourhood_group r <> None /\ room_type r <> None /\
                     reviews_per_month r <> None) (rows out) /\
    Forall2 cleaned_from (filter has_categories (rows t)) (rows out).
Proof.
  intros H. eexists. eexists.
  split; [apply (load_data_run _ _ _ _ _ H)|].
  rewrite rows_dropna_subset. cbn [rows].
  rewrite filter_map_comm.
  split.
  - apply Forall_forall. intros r' Hin.
    apply in_map_iff in Hin. destruct Hin as (r & <- & Hin).
    apply filter_In in Hin. destruct Hin as [_ Hc].
    unfold has_categories, cleaned in *. cbn in *.
    apply andb_true_iff in Hc. destruct Hc as [Hg Hr].
    destruct (neighbourhood_group r), (room_type r); try discriminate.
    repeat split; try discriminate.
    destruct (reviews_per_month r); discriminate.
  - replace (filter (fun x => has_categories (cleaned parse_date x)) (rows t))
      with (filter has_categories (rows t))
      by (apply filter_ext; reflexivity).
    induction (filter has_categories (rows t)) as [|r l IH]; constructor; auto.
    unfold cleaned_from, cleaned. cbn.
    repeat split; auto.
    + intros E. now rewrite E.
    + intros x E. now rewrite E.
Qed.

Lemma load_data_clean_witness :
  raw_fs "AB_NYC_2019.csv" = Some raw_table /\
  exists mid out : DataFrame,
    load_data raw_fs no_dates "AB_NYC_2019.csv" [] = (inr 1%nat, [] ++ [mid; out]) /\
    Forall (fun r => neighbourhood_group r <> None /\ room_type r <> None /\
                     reviews_per_month r <> None) (rows out).
Proof.
  split; [reflexivity|].
  destruct (load_data_clean raw_fs no_dates "AB_NYC_2019.csv" [] raw_table eq_refl)
    as (mid & out & Hrun & Hall & _).
  exists mid, out. split; [exact Hrun | exact Hall].
Defined.

(** ** normalize_and_discretize *)

(** What a run of the feature deriver does to the store: the z-scores are
    assigned to the frame that was passed in; then either [pd.qcut] raises,
    and the frame keeps the new [price_zscore], or the bins are assigned
    too and the same reference is returned. *)
Lemma normalize_and_discretize_run (s : store) (df : ref) (d : DataFrame) (c : numcol) :
  nth_error s df = Some d ->
  let z := map (zscore (mean (column c d)) (std 0 (column c d))) (column c d) in
  normalize_and_discretize df c s =
    match qcut (column c d) 3 ["low"%string; "medium"%string; "high"%string] with
    | inl e => (inl e, update df (mkFrame (rows d) (Some z) (price_bin d)) s)
    | inr bins => (inr df, update df (mkFrame (rows d) (Some z) (Some bins)) s)
    end.
Proof.
  intros H. cbv zeta.
  unfold normalize_and_discretize, bind, get_frame, set_frame, lift, ret.
  rewrite H. rewrite (nth_error_update_same _ _ _ _ H).
  match goal with
  | |- context [qcut (column c ?f)] => change (column c f) with (column c d)
  end.
  destruct (qcut (column c d) 3 _); [reflexivity|].
  cbn [rows price_zscore]. now rewrite update_update.
Qed.

(** The two ways a run of the feature deriver can end. *)
Ltac normalize_cases H :=
  rewrite (normalize_and_discretize_run _ _ _ _ H);
  match goal with
  | |- context [match qcut ?x ?q ?l with _ => _ end] =>
      destruct (qcut x q l) as [?e|?bins]
  end.

(** ** Sums, means and deviations *)

Lemma Q2R_Qn (n : nat) : Q2R (Qn n) = INR n.
Proof.
  unfold Qn, Q2R. simpl. rewrite INR_IZR_INZ. field.
Qed.

Lemma Q2R_Qsum (l : list Q) : Q2R (Qsum l) = Rsum (map Q2R l).
Proof.
  induction l as [|x l IH]; simpl.
  - unfold Q2R. simpl. field.
  - now rewrite Q2R_plus, IH.
Qed.

Lemma Qn_nonzero (n : nat) : (0 < n)%nat -> ~ Qn n == 0.
Proof.
  intros H E. unfold Qn, Qeq in E. simpl in E. lia.
Qed.

Lemma Rsum_map_div {A} (f : A -> R) (c : R) (l : list A) :
  Rsum (map (fun x => f x / c)%R l) = (Rsum (map f l) / c)%R.
Proof.
  induction l as [|x l IH]; simpl.
  - unfold Rdiv. now rewrite Rmult_0_l.
  - rewrite IH. unfold Rdiv. ring.
Qed.

Lemma Rsum_map_minus {A} (f : A -> R) (c : R) (l : list A) :
  Rsum (map (fun x => f x - c)%R l) = (Rsum (map f l) - INR (length l) * c)%R.
Proof.
  induction l as [|x l IH].
  - simpl. ring.
  - cbn [map Rsum fold_right length]. fold (Rsum (map (fun x => f x - c)%R l)).
    fold (Rsum (map f l)). rewrite IH, S_INR. ring.
Qed.

Lemma Rsum_ext {A} (f g : A -> R) (l : list A) :
  (forall x, In x l -> f x = g x) -> Rsum (map f l) = Rsum (map g l).
Proof.
  intros H. induction l as [|x l IH]; simpl; auto.
  rewrite H by (now left). rewrite IH; auto. intros y Hy. apply H. now right.
Qed.

Lemma Rsum_squares_nonneg {A} (f : A -> R) (l : list A) :
  (0 <= Rsum (map (fun x => f x * f x) l))%R.
Proof.
  induction l as [|x l IH]; simpl; [lra|]. nra.
Qed.

Lemma mean_inv (xs : list cell) (m : Q) :
  mean xs = Some m ->
  (0 < length (dropna xs))%nat /\
  m = Qsum (dropna xs) / Qn (length (dropna xs)).
Proof.
  unfold mean. destruct (dropna xs) as [|x v]; [discriminate|].
  intros E. injection E as <-. split; [simpl; lia | reflexivity].
Qed.

Lemma var_inv (ddof : nat) (xs : list cell) (v : Q) :
  var ddof xs = Some v ->
  exists m,
    mean xs = Some m /\ (ddof < length (dropna xs))%nat /\
    v = Qsum (map (fun x => (x - m) * (x - m)) (dropna xs))
        / Qn (length (dropna xs) - ddof).
Proof.
  unfold var. destruct (Nat.leb_spec (length (dropna xs)) ddof); [discriminate|].
  destruct (mean xs) as [m|]; [|discriminate].
  intros E. injection E as <-. exists m. auto.
Qed.

Lemma Q2R_mean (xs : list cell) (m : Q) :
  mean xs = Some m ->
  Q2R m = (Rsum (map Q2R (dropna xs)) / INR (length (dropna xs)))%R.
Proof.
  intros H. apply mean_inv in H. destruct H as [Hn ->].
  rewrite Q2R_div by (now apply Qn_nonzero).
  now rewrite Q2R_Qsum, Q2R_Qn.
Qed.

Lemma Q2R_sum_sq (m : Q) (v : list Q) :
  Q2R (Qsum (map (fun x => (x - m) * (x - m)) v)) = sum_sq_dev m v.
Proof.
  rewrite Q2R_Qsum, map_map. unfold sum_sq_dev. apply Rsum_ext.
  intros x _. now rewrite Q2R_mult, Q2R_minus.
Qed.

Lemma Q2R_var (ddof : nat) (xs : list cell) (v m : Q) :
  var ddof xs = Some v -> mean xs = Some m ->
  Q2R v = (sum_sq_dev m (dropna xs) / INR (length (dropna xs) - ddof))%R.
Proof.
  intros Hv Hm. apply var_inv in Hv. destruct Hv as (m' & Hm' & Hn & ->).
  assert (m' = m) by congruence. subst m'.
  rewrite Q2R_div by (apply Qn_nonzero; lia).
  now rewrite Q2R_sum_sq, Q2R_Qn.
Qed.

Lemma sum_sq_dev_nonneg (m : Q) (v : list Q) : (0 <= sum_sq_dev m v)%R.
Proof.
  unfold sum_sq_dev. apply (Rsum_squares_nonneg (fun x => (Q2R x - Q2R m)%R)).
Qed.

Lemma Q2R_var_nonneg (ddof : nat) (xs : list cell) (v : Q) :
  var ddof xs = Some v -> (0 <= Q2R v)%R.
Proof.
  intros Hv. destruct (var_inv _ _ _ Hv) as (m & Hm & Hn & _).
  rewrite (Q2R_var _ _ _ _ Hv Hm).
  apply Rmult_le_pos; [apply sum_sq_dev_nonneg|].
  apply Rlt_le, Rinv_0_lt_compat, lt_0_INR. lia.
Qed.

(** The values of the z-score column when the divisor is not zero. *)
Lemma dropna_zscore (m : Q) (sd : R) (xs : list cell) :
  sd <> 0%R ->
  dropna (map (zscore (Some m) (Some sd)) xs)
  = map (fun x => ((Q2R x - Q2R m) / sd)%R) (dropna xs).
Proof.
  intros Hsd. induction xs as [|[x|] xs IH]; auto.
  cbn [map]. unfold zscore at 1, rdiv, fsub, option_map.
  destruct (Req_dec_T sd 0); [contradiction|].
  cbn [dropna map]. now rewrite IH, Q2R_minus.
Qed.

(** With a zero divisor every z-score is NaN. *)
Lemma zscore_zero_std (m : cell) (xs : list cell) :
  map (zscore m (Some 0%R)) xs = map (fun _ => None) xs.
Proof.
  apply map_ext. intros x. unfold zscore, rdiv.
  destruct (option_map Q2R (fsub x m)); auto.
  destruct (Req_dec_T 0 0); [reflexivity | contradiction].
Qed.

Lemma std_inv (ddof : nat) (xs : list cell) (sd : R) :
  std ddof xs = Some sd ->
  exists v, var ddof xs = Some v /\ sd = sqrt (Q2R v).
Proof.
  unfold std. destruct (var ddof xs) as [v|]; [|discriminate].
  intros E. injection E as <-. now exists v.
Qed.

Lemma rmean_some (xs : list rcell) :
  dropna xs <> [] ->
  rmean xs = Some (Rsum (dropna xs) / INR (length (dropna xs)))%R.
Proof.
  unfold rmean. destruct (dropna xs); [congruence | reflexivity].
Qed.

(** The z-scores of a column have mean 0 and population standard deviation
    1, when the standard deviation of the column is not zero. *)
Lemma zscore_mean_std (xs : list cell) (sd : R) :
  std 0 xs = Some sd -> sd <> 0%R ->
  rmean (map (zscore (mean xs) (std 0 xs)) xs) = Some 0%R /\
  rstd 0 (map (zscore (mean xs) (std 0 xs)) xs) = Some 1%R.
Proof.
  intros Hstd Hsd. rewrite Hstd.
  destruct (std_inv _ _ _ Hstd) as (v & Hv & Esd).
  destruct (var_inv _ _ _ Hv) as (m & Hm & Hn & _).
  pose proof (Q2R_var _ _ _ _ Hv Hm) as Hvar.
  pose proof (Q2R_var_nonneg _ _ _ Hv) as Hv0.
  pose proof (Q2R_mean _ _ Hm) as Hmean.
  rewrite Hm.
  set (vals := dropna xs) in *.
  set (n := length vals) in *.
  assert (HnR : (0 < INR n)%R) by (apply lt_0_INR; lia).
  assert (Hsq : (sd * sd = Q2R v)%R) by (subst sd; now apply sqrt_sqrt).
  assert (Hmean0 :
    rmean (map (zscore (Some m) (Some sd)) xs) = Some 0%R).
  { rewrite rmean_some.
    - rewrite (dropna_zscore m sd xs Hsd). fold vals. f_equal.
      rewrite length_map. fold n.
      rewrite (Rsum_map_div (fun x => (Q2R x - Q2R m)%R) sd).
      rewrite (Rsum_map_minus Q2R (Q2R m)). fold n.
      rewrite Hmean. field. split; lra.
    - rewrite (dropna_zscore m sd xs Hsd). fold vals.
      destruct vals; [simpl in n; lia | discriminate]. }
  split; [exact Hmean0|].
  unfold rstd, rvar. rewrite Hmean0.
  rewrite (dropna_zscore m sd xs Hsd). fold vals.
  rewrite length_map. fold n.
  destruct (Nat.leb_spec n 0); [lia|].
  cbn [option_map]. f_equal.
  rewrite map_map, Nat.sub_0_r.
  replace (Rsum (map (fun x => ((Q2R x - Q2R m) / sd - 0) * ((Q2R x - Q2R m) / sd - 0))%R vals))
    with (sum_sq_dev m vals / (sd * sd))%R.
  - rewrite Hsq, Hvar. rewrite Nat.sub_0_r. fold n.
    assert (Hss : (sum_sq_dev m vals <> 0)%R).
    { intros E. apply Hsd. subst sd. rewrite Hvar, E.
      unfold Rdiv. rewrite Rmult_0_l. apply sqrt_0. }
    replace (sum_sq_dev m vals / (sum_sq_dev m vals / INR n) / INR n)%R with 1%R
      by (field; split; lra).
    apply sqrt_1.
  - unfold sum_sq_dev.
    rewrite <- (Rsum_map_div (fun x => ((Q2R x - Q2R m) * (Q2R x - Q2R m))%R) (sd * sd)).
    apply Rsum_ext. intros x _. field. exact Hsd.
Qed.

(** C3.  When the population standard deviation of the price column is
    defined and not zero (so the frame has at least one price), the
    [price_zscore] column that [normalize_and_discretize] assigns has mean
    exactly 0 and population standard deviation (divisor N) exactly 1, in
    exact arithmetic.  The column is assigned whether or not the binning
    that follows succeeds. *)
Theorem price_zscore_standardised
  (s : store) (df : ref) (d : DataFrame) (c : numcol) (sd : R) :
  nth_error s df = Some d ->
  std 0 (column c d) = Some sd ->
  sd <> 0%R ->
  exists (res : exn + ref) (s' : store) (d' : DataFrame) (z : list rcell),
    normalize_and_discretize df c s = (res, s') /\
    nth_error s' df = Some d' /\
    price_zscore d' = Some z /\
    rmean z = Some 0%R /\
    rstd 0 z = Some 1%R.
Proof.
  intros H Hstd Hsd.
  destruct (zscore_mean_std _ _ Hstd Hsd) as [Hm Hs].
  normalize_cases H; do 4 eexists;
    (split; [reflexivity|]);
    (split; [apply (nth_error_update_same _ _ _ _ H)|]);
    (split; [reflexivity|]); split; assumption.
Qed.

Lemma var_three_prices :
  var 0 (column col_price (three_prices)) = Some (145800 # 2187).
Proof. vm_compute. reflexivity. Qed.

Lemma price_zscore_standardised_witness :
  nth_error [three_prices] 0%nat = Some (three_prices) /\
  std 0 (column col_price (three_prices)) = Some (sqrt (Q2R (145800 # 2187))) /\
  sqrt (Q2R (145800 # 2187)) <> 0%R /\
  exists (res : exn + ref) (s' : store) (d' : DataFrame) (z : list rcell),
    normalize_and_discretize 0%nat col_price [three_prices] = (res, s') /\
    nth_error s' 0%nat = Some d' /\
    price_zscore d' = Some z /\
    rmean z = Some 0%R /\
    rstd 0 z = Some 1%R.
Proof.
  assert (Hstd : std 0 (column col_price (three_prices))
                 = Some (sqrt (Q2R (145800 # 2187)))).
  { unfold std. now rewrite var_three_prices. }
  assert (Hne : sqrt (Q2R (145800 # 2187)) <> 0%R).
  { apply Rgt_not_eq, sqrt_lt_R0. unfold Q2R. simpl. lra. }
  split; [reflexivity|]. split; [exact Hstd|]. split; [exact Hne|].
  exact (price_zscore_standardised [three_prices] 0%nat
           (three_prices) col_price _ eq_refl Hstd Hne).
Defined.

(** ** descriptive_statistics *)

Lemma descriptive_statistics_run (s : store) (df : ref) (d : DataFrame) :
  nth_error s df = Some d ->
  descriptive_statistics df s
  = (inr ([("price"%string, describe (column col_price d));
           ("reviews_per_month"%string, describe (column col_reviews_per_month d))]
          ++ match price_zscore d with
             | Some z => [("price_zscore"%string, rdescribe z)]
             | None => []
             end), s).
Proof.
  intros H. unfold descriptive_statistics, bind, get_frame, ret. now rewrite H.
Qed.

(** The two standard deviations of one column: that with divisor [N] is
    the one with divisor [N-1] times [sqrt((N-1)/N)], and they differ
    unless both are zero. *)
Lemma std_population_vs_sample (xs : list cell) (v : Q) :
  (2 <= length (dropna xs))%nat ->
  var 0 xs = Some v -> ~ v == 0 ->
  exists s0 s1 : R,
    std 0 xs = Some s0 /\ std 1 xs = Some s1 /\
    s0 = (sqrt ((INR (length (dropna xs)) - 1) / INR (length (dropna xs))) * s1)%R /\
    s0 <> s1.
Proof.
  intros Hn Hv Hv0.
  destruct (var_inv _ _ _ Hv) as (m & Hm & _ & _).
  set (n := length (dropna xs)) in *.
  assert (Hv1 : var 1 xs
                = Some (Qsum (map (fun x => (x - m) * (x - m)) (dropna xs)) / Qn (n - 1))).
  { unfold var. fold n. destruct (Nat.leb_spec n 1); [lia|]. now rewrite Hm. }
  pose proof (Q2R_var _ _ _ _ Hv Hm) as E0.
  pose proof (Q2R_var _ _ _ _ Hv1 Hm) as E1.
  fold n in E0, E1. rewrite Nat.sub_0_r in E0.
  assert (HnR : (2 <= INR n)%R) by (change 2%R with (INR 2); now apply le_INR).
  assert (Hn1 : INR (n - 1) = (INR n - 1)%R) by (rewrite minus_INR by lia; reflexivity).
  rewrite Hn1 in E1.
  pose proof (sum_sq_dev_nonneg m (dropna xs)) as Hss.
  set (SS := sum_sq_dev m (dropna xs)) in *.
  assert (HSS : (0 < SS)%R).
  { destruct Hss as [L|E]; auto. exfalso. apply Hv0.
    apply eqR_Qeq. rewrite E0, <- E. unfold Q2R, Rdiv. simpl. lra. }
  set (v1 := Qsum (map (fun x => (x - m) * (x - m)) (dropna xs)) / Qn (n - 1)) in *.
  exists (sqrt (Q2R v)), (sqrt (Q2R v1)).
  split; [unfold std; now rewrite Hv|].
  split; [unfold std; now rewrite Hv1|].
  assert (Hk0 : (0 <= (INR n - 1) / INR n)%R).
  { apply Rmult_le_pos; [lra|]. apply Rlt_le, Rinv_0_lt_compat. lra. }
  assert (Hv1pos : (0 < Q2R v1)%R).
  { rewrite E1. apply Rmult_lt_0_compat; auto. apply Rinv_0_lt_compat. lra. }
  assert (Efactor : sqrt (Q2R v) = (sqrt ((INR n - 1) / INR n) * sqrt (Q2R v1))%R).
  { rewrite <- sqrt_mult by lra. f_equal. rewrite E0, E1. field. lra. }
  split; [exact Efactor|].
  rewrite Efactor.
  assert (Hk1 : (sqrt ((INR n - 1) / INR n) < 1)%R).
  { rewrite <- sqrt_1 at 2. apply sqrt_lt_1_alt. split; auto.
    apply (Rmult_lt_reg_r (INR n)); [lra|].
    unfold Rdiv. rewrite Rmult_assoc, Rinv_l by lra. lra. }
  pose proof (sqrt_lt_R0 _ Hv1pos). nra.
Qed.

Lemma zscore_value (m x : Q) (sd : R) :
  sd <> 0%R ->
  zscore (Some m) (Some sd) (Some x) = Some ((Q2R x - Q2R m) / sd)%R.
Proof.
  intros Hsd. unfold zscore, rdiv, fsub, option_map.
  destruct (Req_dec_T sd 0); [contradiction|]. now rewrite Q2R_minus.
Qed.

Lemma zero_std_zero_var (xs : list cell) :
  std 0 xs = Some 0%R -> exists v, var 0 xs = Some v /\ v == 0.
Proof.
  intros H. destruct (std_inv _ _ _ H) as (v & Hv & E).
  exists v. split; auto.
  apply eqR_Qeq. symmetry in E.
  apply sqrt_eq_0 in E; [|now apply (Q2R_var_nonneg 0 xs)].
  rewrite E. unfold Q2R. simpl. lra.
Qed.

(** The entries of the z-score column, one by one. *)
Lemma zscore_standardised (m : Q) (sd : R) (xs : list cell) :
  sd <> 0%R ->
  Forall2 (standardised m sd) xs (map (zscore (Some m) (Some sd)) xs).
Proof.
  intros Hsd. induction xs as [|[x|] xs IH]; constructor; auto.
  - unfold standardised. apply zscore_value. exact Hsd.
  - reflexivity.
Qed.

(** A standard deviation, by its divisor: its square is the sum of the
    squared deviations from the mean divided by [N - ddof]. *)
Lemma std_square (ddof : nat) (xs : list cell) (m : Q) (sd : R) :
  mean xs = Some m -> std ddof xs = Some sd ->
  (0 <= sd)%R /\
  (sd * sd = sum_sq_dev m (dropna xs) / INR (length (dropna xs) - ddof))%R.
Proof.
  intros Hm Hs. destruct (std_inv _ _ _ Hs) as (v & Hv & ->).
  split; [apply sqrt_pos|].
  rewrite sqrt_sqrt by (apply (Q2R_var_nonneg ddof xs); exact Hv).
  exact (Q2R_var _ _ _ _ Hv Hm).
Qed.

(** C4.  For a price column with N >= 2 values and a variance that is not
    zero, let [m] be its mean.  Every entry of the [price_zscore] column
    that [normalize_and_discretize] assigns is the deviation of the price
    from [m] divided by [s0], where [s0 > 0] is the standard deviation
    with divisor N ([s0^2] is the sum of the squared deviations over N);
    the row of [price] in the table of [descriptive_statistics] reports
    [s1 > 0], the one with divisor N-1 ([s1^2] is that sum over N-1).  The
    two differ, by the factor [sqrt((N-1)/N)]; N is the number of prices
    that are not missing. *)
Theorem zscore_std_differs_from_reported_std
  (s : store) (df : ref) (d : DataFrame) (v : Q) :
  nth_error s df = Some d ->
  (2 <= length (dropna (column col_price d)))%nat ->
  var 0 (column col_price d) = Some v ->
  ~ v == 0 ->
  exists (m : Q) (s0 s1 : R) (res : exn + ref) (s' : store) (d' : DataFrame)
         (z : list rcell) (table : list (string * Summary)) (summary : Summary),
    mean (column col_price d) = Some m /\
    (0 < s0)%R /\
    (s0 * s0 = sum_sq_dev m (dropna (column col_price d))
               / INR (length (dropna (column col_price d))))%R /\
    (0 < s1)%R /\
    (s1 * s1 = sum_sq_dev m (dropna (column col_price d))
               / (INR (length (dropna (column col_price d))) - 1))%R /\
    normalize_and_discretize df col_price s = (res, s') /\
    nth_error s' df = Some d' /\
    price_zscore d' = Some z /\
    Forall2 (standardised m s0) (column col_price d) z /\
    descriptive_statistics df s' = (inr table, s') /\
    In ("price"%string, summary) table /\
    s_std summary = Some s1 /\
    s0 = (sqrt ((INR (length (dropna (column col_price d))) - 1)
                / INR (length (dropna (column col_price d)))) * s1)%R /\
    s0 <> s1.
Proof.
  intros H Hn Hv Hv0.
  destruct (std_population_vs_sample _ _ Hn Hv Hv0) as (s0 & s1 & E0 & E1 & Ef & Hne).
  destruct (var_inv _ _ _ Hv) as (m & Hm & _ & _).
  destruct (std_square 0 _ _ _ Hm E0) as [P0 Q0].
  destruct (std_square 1 _ _ _ Hm E1) as [P1 Q1].
  rewrite Nat.sub_0_r in Q0.
  rewrite minus_INR in Q1 by lia. change (INR 1) with 1%R in Q1.
  assert (Hs1 : s1 <> 0%R).
  { intros Z1. apply Hne. rewrite Ef, Z1. ring. }
  assert (Hs0 : s0 <> 0%R).
  { intros Z0. destruct (zero_std_zero_var (column col_price d)) as (v' & Hv' & Hz).
    - now rewrite E0, Z0.
    - apply Hv0. congruence. }
  exists m, s0, s1.
  rewrite (normalize_and_discretize_run _ _ _ _ H). rewrite E0, Hm.
  destruct (qcut (column col_price d) 3 _); do 6 eexists;
    (split; [reflexivity|]);
    (split; [lra|]); (split; [exact Q0|]);
    (split; [lra|]); (split; [exact Q1|]);
    (split; [reflexivity|]);
    (split; [apply (nth_error_update_same _ _ _ _ H)|]);
    (split; [reflexivity|]);
    (split; [now apply zscore_standardised|]);
    (split; [apply descriptive_statistics_run, (nth_error_update_same _ _ _ _ H)|]);
    (split; [left; reflexivity|]);
    (split; [exact E1|]); split; assumption.
Qed.

Lemma zscore_std_differs_from_reported_std_witness :
  nth_error [three_prices] 0%nat = Some (three_prices) /\
  (2 <= length (dropna (column col_price (three_prices))))%nat /\
  var 0 (column col_price (three_prices)) = Some (145800 # 2187) /\
  ~ (145800 # 2187) == 0 /\
  exists (m : Q) (s0 s1 : R) (z : list rcell)
         (table : list (string * Summary)) (summary : Summary),
    mean (column col_price three_prices) = Some m /\
    Forall2 (standardised m s0) (column col_price three_prices) z /\
    In ("price"%string, summary) table /\
    s_std summary = Some s1 /\
    s0 = (sqrt ((INR 3 - 1) / INR 3) * s1)%R /\
    s0 <> s1.
Proof.
  split; [reflexivity|]. split; [simpl; lia|].
  split; [exact var_three_prices|]. split; [discriminate|].
  destruct (zscore_std_differs_from_reported_std
              [three_prices] 0%nat (three_prices)
              (145800 # 2187) eq_refl (le_S _ _ (le_n 2)) var_three_prices)
    as (m & s0 & s1 & res & s' & d' & z & table & summary
        & Hm & _ & _ & _ & _ & _ & _ & _ & Hz & _ & Hin & Hs & Hf & Hne).
  { discriminate. }
  exists m, s0, s1, z, table, summary. repeat split; assumption.
Defined.

(** ** A column without spread *)

Lemma Qsquare_nonneg (a : Q) : 0 <= a * a.
Proof. nra. Qed.

Lemma Qsum_squares_nonneg (m : Q) (l : list Q) :
  0 <= Qsum (map (fun x => (x - m) * (x - m)) l).
Proof.
  induction l as [|x l IH]; simpl; [lra|].
  pose proof (Qsquare_nonneg (x - m)). lra.
Qed.

Lemma Qsum_squares_zero (m : Q) (l : list Q) :
  Qsum (map (fun x => (x - m) * (x - m)) l) == 0 ->
  forall x, In x l -> x == m.
Proof.
  induction l as [|y l IH]; simpl; intros E x Hin; [contradiction|].
  pose proof (Qsum_squares_nonneg m l) as Hl.
  pose proof (Qsquare_nonneg (y - m)) as Hsq.
  assert (Hy : (y - m) * (y - m) == 0) by lra.
  assert (Hl0 : Qsum (map (fun x => (x - m) * (x - m)) l) == 0) by lra.
  destruct Hin as [<-|Hin]; [|now apply IH].
  apply Qmult_integral in Hy. destruct Hy; lra.
Qed.

Lemma Qsum_bounds (lo hi : Q) (l : list Q) :
  (forall x, In x l -> lo <= x /\ x <= hi) ->
  Qn (length l) * lo <= Qsum l /\ Qsum l <= Qn (length l) * hi.
Proof.
  induction l as [|x l IH]; intros H.
  - simpl. change (Qn 0) with 0. split; lra.
  - cbn [length]. change (Qsum (x :: l)) with (x + Qsum l). rewrite Qn_S.
    destruct (H x (or_introl eq_refl)) as [A B].
    destruct IH as [C D]; [intros y Hy; apply H; now right|].
    split; lra.
Qed.

(** The mean lies between any two bounds of the values. *)
Lemma mean_between (lo hi m : Q) (xs : list cell) :
  (forall x, In x (dropna xs) -> lo <= x /\ x <= hi) ->
  mean xs = Some m -> lo <= m /\ m <= hi.
Proof.
  intros Hall Hm. destruct (mean_inv _ _ Hm) as [Hn ->].
  destruct (Qsum_bounds lo hi _ Hall) as [A B].
  assert (Hpos : 0 < Qn (length (dropna xs))).
  { pose proof (Qn_nonneg (length (dropna xs))).
    pose proof (Qn_nonzero _ Hn). lra. }
  split.
  - apply Qle_shift_div_l; auto. lra.
  - apply Qle_shift_div_r; auto. lra.
Qed.

(** A zero variance forces every value of the column to equal the mean:
    every numerator of the z-score is then zero. *)
Lemma zero_var_all_mean (xs : list cell) (v : Q) :
  var 0 xs = Some v -> v == 0 ->
  exists m, mean xs = Some m /\ forall x, In x (dropna xs) -> x == m.
Proof.
  intros Hv Hv0. destruct (var_inv _ _ _ Hv) as (m & Hm & Hn & Ev).
  exists m. split; auto.
  apply Qsum_squares_zero.
  rewrite Nat.sub_0_r in Ev.
  assert (Hq : ~ Qn (length (dropna xs)) == 0) by (apply Qn_nonzero; lia).
  rewrite Ev in Hv0. apply Qmult_integral in Hv0.
  destruct Hv0 as [E|E]; auto.
  exfalso. apply Hq.
  rewrite <- (Qinv_involutive (Qn (length (dropna xs)))). rewrite E. reflexivity.
Qed.

Lemma dropna_In {A} (xs : list (option A)) (x : A) :
  In x (dropna xs) <-> In (Some x) xs.
Proof.
  induction xs as [|[y|] xs IH]; simpl; [tauto| |].
  - rewrite IH. split; intros [E|E]; auto; left; congruence.
  - rewrite IH. split; [auto | intros [E|E]; [discriminate | auto]].
Qed.

(** Every quantile of a column whose values all equal [m] is [m]. *)
Lemma quantile_constant (q m : Q) (xs : list cell) :
  0 <= q -> q <= 1 -> dropna xs <> [] ->
  (forall x, In x (dropna xs) -> x == m) ->
  exists e, quantile q xs = Some e /\ e == m.
Proof.
  intros Hq0 Hq1 Hne Hall.
  destruct (quantile_linear q xs Hq0 Hq1 Hne) as (e & Eq & s & Hp & _ & j & g & Hj & _ & _ & _ & Ee).
  exists e. split; auto.
  assert (Ha : nth j s 0 == m).
  { apply Hall. apply (Permutation_in _ Hp). now apply nth_In. }
  assert (Hb : nth (S j) s (nth j s 0) == m).
  { destruct (Nat.lt_ge_cases (S j) (length s)) as [L|L].
    - rewrite (nth_indep s (nth j s 0) 0 L).
      apply Hall. apply (Permutation_in _ Hp). now apply nth_In.
    - now rewrite nth_overflow. }
  rewrite Ee, Hb, Ha. ring.
Qed.

Lemma linspace01_3 : linspace01 3 = [0 # 3; 1 # 3; 2 # 3; 3 # 3].
Proof. reflexivity. Qed.

(** [pd.qcut] into tertiles raises on a column whose values are all the
    same. *)
Lemma qcut_constant (m : Q) (xs : list cell) (labels : list string) :
  dropna xs <> [] ->
  (forall x, In x (dropna xs) -> x == m) ->
  qcut xs 3 labels = inl bin_edges_error.
Proof.
  intros Hne Hall. unfold qcut. rewrite linspace01_3. cbn [map].
  destruct (quantile_constant (0 # 3) m xs) as (e0 & -> & E0); auto; try (unfold Qle; simpl; lia).
  destruct (quantile_constant (1 # 3) m xs) as (e1 & -> & E1); auto; try (unfold Qle; simpl; lia).
  destruct (quantile_constant (2 # 3) m xs) as (e2 & -> & E2); auto; try (unfold Qle; simpl; lia).
  destruct (quantile_constant (3 # 3) m xs) as (e3 & -> & E3); auto; try (unfold Qle; simpl; lia).
  unfold bins_to_cuts, unique. cbn [unique_from existsb cell_eqb orb].
  assert (H1 : Qeq_bool e1 e0 = true) by (apply Qeq_bool_iff; now rewrite E0, E1).
  assert (H2 : Qeq_bool e2 e0 = true) by (apply Qeq_bool_iff; now rewrite E0, E2).
  assert (H3 : Qeq_bool e3 e0 = true) by (apply Qeq_bool_iff; now rewrite E0, E3).
  rewrite H1, H2, H3. reflexivity.
Qed.

(** What the feature deriver does on a column of zero standard deviation:
    every z-score becomes NaN, in place, and then [pd.qcut] raises. *)
Lemma normalize_and_discretize_zero_std
  (s : store) (df : ref) (d : DataFrame) (c : numcol) :
  nth_error s df = Some d ->
  std 0 (column c d) = Some 0%R ->
  normalize_and_discretize df c s
  = (inl bin_edges_error,
     update df (mkFrame (rows d) (Some (map (fun _ => None) (column c d))) (price_bin d)) s).
Proof.
  intros H Hstd.
  rewrite (normalize_and_discretize_run _ _ _ _ H).
  destruct (zero_std_zero_var _ Hstd) as (v & Hv & Hv0).
  destruct (zero_var_all_mean _ _ Hv Hv0) as (m & Hm & Hall).
  rewrite (qcut_constant m).
  - rewrite Hstd. now rewrite zscore_zero_std.
  - apply mean_inv in Hm. destruct Hm as [Hn _].
    destruct (dropna (column c d)); [simpl in Hn; lia | discriminate].
  - exact Hall.
Qed.

Lemma std_equal_prices : std 0 (column col_price equal_prices) = Some 0%R.
Proof.
  unfold std.
  replace (var 0 (column col_price equal_prices)) with (Some (0 # 32))
    by (vm_compute; reflexivity).
  cbn [option_map]. f_equal.
  replace (Q2R (0 # 32)) with 0%R by (unfold Q2R; simpl; lra).
  apply sqrt_0.
Qed.

(** A column whose values all equal [m]: its mean is [m], its squared
    deviations vanish, and so does its standard deviation. *)
Lemma mean_constant (m : Q) (xs : list cell) :
  dropna xs <> [] ->
  (forall x, In x (dropna xs) -> x == m) ->
  exists mu, mean xs = Some mu /\ mu == m.
Proof.
  intros Hne Hall.
  assert (Hmu : exists mu, mean xs = Some mu).
  { unfold mean. destruct (dropna xs); [congruence | eauto]. }
  destruct Hmu as [mu Emu]. exists mu. split; [exact Emu|].
  destruct (mean_between m m mu xs) as [L1 L2]; auto; [|lra].
  intros x Hx. rewrite (Hall x Hx). split; apply Qle_refl.
Qed.

Lemma Qsum_squares_constant (m : Q) (l : list Q) :
  (forall x, In x l -> x == m) ->
  Qsum (map (fun x => (x - m) * (x - m)) l) == 0.
Proof.
  induction l as [|x l IH]; intros Hall; [reflexivity|].
  cbn [map]. change (Qsum (?a :: ?t)) with (a + Qsum t).
  rewrite IH by (intros y Hy; apply Hall; now right).
  rewrite (Hall x (or_introl eq_refl)). ring.
Qed.

Lemma std_constant (m : Q) (xs : list cell) :
  dropna xs <> [] ->
  (forall x, In x (dropna xs) -> x == m) ->
  std 0 xs = Some 0%R.
Proof.
  intros Hne Hall.
  destruct (mean_constant m xs Hne Hall) as (mu & Emu & Hmu).
  unfold std, var. rewrite Emu.
  destruct (Nat.leb_spec (length (dropna xs)) 0) as [L|L].
  { destruct (dropna xs); [congruence | simpl in L; lia]. }
  cbn [option_map]. f_equal.
  assert (E : Qsum (map (fun x => (x - mu) * (x - mu)) (dropna xs))
              / Qn (length (dropna xs) - 0) == 0).
  { rewrite Qsum_squares_constant.
    - unfold Qdiv. ring.
    - intros x Hx. rewrite (Hall x Hx). now symmetry. }
  rewrite (Qeq_eqR _ _ E).
  replace (Q2R 0) with 0%R by (unfold Q2R; simpl; lra).
  apply sqrt_0.
Qed.

(** Prices that are all equal need not have a mean equal to them in
    binary64: the sum of three doubles next to 0.1 rounds up, and their
    mean is the next double above.  On such a column the deviations from
    the mean are not zero, and neither is the standard deviation. *)
Lemma mean64_rounding :
  mean64 [0x1.999999999999ap-4; 0x1.999999999999ap-4; 0x1.999999999999ap-4]%float
  = 0x1.999999999999bp-4%float /\
  (0x1.999999999999ap-4 <? 0x1.999999999999bp-4)%float = true.
Proof.
  split; vm_compute; reflexivity.
Qed.

(** C5, as stated, fails: on two listings at the same price the standard
    deviation is zero and the feature deriver ends with the [ValueError] of
    [pd.qcut], not with a [DegenerateDistributionError]. *)
Lemma degenerate_error_counterexample :
  std 0 (column col_price equal_prices) = Some 0%R /\
  fst (normalize_and_discretize 0%nat col_price [equal_prices])
  = inl (Raise "ValueError" "Bin edges must be unique") /\
  exn_class (Raise "ValueError" "Bin edges must be unique")
  <> "DegenerateDistributionError"%string.
Proof.
  split; [exact std_equal_prices|]. split; [|discriminate].
  rewrite (normalize_and_discretize_zero_std [equal_prices] 0%nat equal_prices
             col_price eq_refl std_equal_prices).
  reflexivity.
Qed.

(** C5, amended.  On a column whose prices are all equal (at least one of
    them present) the feature deriver raises no
    [DegenerateDistributionError]: it assigns [price_zscore], one entry
    per row, on the frame that was passed in, and then ends with the
    [ValueError] that [pd.qcut] raises for edges that are not unique (all
    four edges are that one price, whatever the rounding), leaving
    [price_bin] as it was.  Where the common price is a whole number [k]
    and N rows give [N * |k| <= 2^53], the sum of the column, its mean
    [k] and every deviation are exact in binary64 too: the standard
    deviation is exactly zero, the division is [0 / 0], and the
    [price_zscore] of every row is NaN. *)
Theorem zero_std_raises_value_error
  (s : store) (df : ref) (d : DataFrame) (c : numcol) (m : Q) :
  nth_error s df = Some d ->
  dropna (column c d) <> [] ->
  (forall x, In x (dropna (column c d)) -> x == m) ->
  exists z : list rcell,
    normalize_and_discretize df c s
    = (inl (Raise "ValueError" "Bin edges must be unique"),
       update df (mkFrame (rows d) (Some z) (price_bin d)) s) /\
    length z = length (rows d) /\
    (forall k : Z,
       m == inject_Z k ->
       (Z.of_nat (length (rows d)) * Z.abs k <= 2 ^ 53)%Z ->
       (exists mu, mean (column c d) = Some mu /\ mu == inject_Z k) /\
       std 0 (column c d) = Some 0%R /\
       z = map (fun _ => None) (column c d)).
Proof.
  intros H Hne Hall.
  exists (map (zscore (mean (column c d)) (std 0 (column c d))) (column c d)).
  split.
  - rewrite (normalize_and_discretize_run _ _ _ _ H).
    now rewrite (qcut_constant m _ _ Hne Hall).
  - split; [unfold column; now rewrite !length_map|].
    intros k Ek _. split; [|split].
    + destruct (mean_constant m _ Hne Hall) as (mu & Emu & Hmu).
      exists mu. split; [exact Emu|]. now rewrite Hmu.
    + exact (std_constant m _ Hne Hall).
    + rewrite (std_constant m _ Hne Hall). apply zscore_zero_std.
Qed.

Lemma zero_std_raises_value_error_witness :
  nth_error [equal_prices] 0%nat = Some equal_prices /\
  dropna (column col_price equal_prices) <> [] /\
  (forall x, In x (dropna (column col_price equal_prices)) -> x == 100) /\
  100 == inject_Z 100 /\
  (Z.of_nat (length (rows equal_prices)) * Z.abs 100 <= 2 ^ 53)%Z /\
  fst (normalize_and_discretize 0%nat col_price [equal_prices])
  = inl (Raise "ValueError" "Bin edges must be unique") /\
  std 0 (column col_price equal_prices) = Some 0%R.
Proof.
  assert (Hne : dropna (column col_price equal_prices) <> []) by discriminate.
  assert (Hall : forall x, In x (dropna (column col_price equal_prices)) -> x == 100).
  { intros x [<-|[<-|[]]]; reflexivity. }
  assert (Hk : 100 == inject_Z 100) by reflexivity.
  assert (Hb : (Z.of_nat (length (rows equal_prices)) * Z.abs 100 <= 2 ^ 53)%Z)
    by (vm_compute; discriminate).
  split; [reflexivity|]. split; [exact Hne|]. split; [exact Hall|].
  split; [exact Hk|]. split; [exact Hb|].
  destruct (zero_std_raises_value_error [equal_prices] 0%nat equal_prices col_price 100
              eq_refl Hne Hall) as (z & Hrun & _ & Hexact).
  destruct (Hexact 100%Z Hk Hb) as (_ & Hstd & _).
  split; [now rewrite Hrun | exact Hstd].
Defined.

(** ** The tertile bins *)

Lemma quantile_some_linear (q e : Q) (xs : list cell) :
  0 <= q -> q <= 1 -> quantile q xs = Some e -> linear_quantile q xs e.
Proof.
  intros Hq0 Hq1 He.
  assert (Hne : dropna xs <> []).
  { intros E. rewrite (quantile_none _ _ E) in He. discriminate. }
  destruct (quantile_linear q xs Hq0 Hq1 Hne) as (v & Ev & L).
  congruence.
Qed.

Lemma perm_nth_In (s l : list Q) (i : nat) :
  Permutation s l -> (i < length s)%nat -> In (nth i s 0) l.
Proof.
  intros Hp Hi. apply (Permutation_in _ Hp). now apply nth_In.
Qed.

(** The quantile at 0 is the least value of the column. *)
Lemma quantile_lowest (xs : list cell) (e : Q) :
  quantile (0 # 3) xs = Some e ->
  (exists x, In x (dropna xs) /\ x == e) /\
  forall y, In y (dropna xs) -> e <= y.
Proof.
  intros He. apply quantile_some_linear in He; try (unfold Qle; simpl; lia).
  destruct He as (s & Hp & Hs & j & g & Hj & Hg0 & Hg1 & Hpos & Ee).
  pose proof (Qn_le 0 j (Nat.le_0_l j)) as Hj0. change (Qn 0) with 0 in Hj0.
  assert (Ej : Qn j == 0) by lra.
  assert (Eg : g == 0) by lra.
  apply Qn_zero_inv in Ej. subst j.
  assert (E0 : e == nth 0 s 0) by (rewrite Ee, Eg; ring).
  split.
  - exists (nth 0 s 0). split; [|now symmetry].
    now apply (perm_nth_In s).
  - intros y Hy. apply (Permutation_in _ (Permutation_sym Hp)) in Hy.
    destruct (In_nth s y 0 Hy) as (i & Hi & <-).
    rewrite E0. apply strongly_sorted_nth; [|lia].
    apply Sorted_StronglySorted; [exact Qle_trans | exact Hs].
Qed.

(** The quantile at 1 is the greatest value of the column. *)
Lemma quantile_highest (xs : list cell) (e : Q) :
  quantile (3 # 3) xs = Some e ->
  (exists x, In x (dropna xs) /\ x == e) /\
  forall y, In y (dropna xs) -> y <= e.
Proof.
  intros He. apply quantile_some_linear in He; try (unfold Qle; simpl; lia).
  destruct He as (s & Hp & Hs & j & g & Hj & Hg0 & Hg1 & Hpos & Ee).
  assert (Hlast : j = (length s - 1)%nat).
  { destruct (Nat.eq_dec j (length s - 1)) as [E|E]; auto. exfalso.
    pose proof (Qn_le (S j) (length s - 1) ltac:(lia)) as L.
    rewrite Qn_S in L.
    assert (H1 : Qn (length s - 1) * (3 # 3) == Qn (length s - 1)) by ring.
    lra. }
  assert (Eg : g == 0).
  { rewrite <- Hlast in Hpos.
    assert (H1 : Qn j * (3 # 3) == Qn j) by ring. lra. }
  assert (E0 : e == nth j s 0) by (rewrite Ee, Eg; ring).
  split.
  - exists (nth j s 0). split; [|now symmetry].
    now apply (perm_nth_In s).
  - intros y Hy. apply (Permutation_in _ (Permutation_sym Hp)) in Hy.
    destruct (In_nth s y 0 Hy) as (i & Hi & <-).
    rewrite E0. apply strongly_sorted_nth; [|lia].
    apply Sorted_StronglySorted; [exact Qle_trans | exact Hs].
Qed.

(** With four strictly increasing edges, [pd.qcut] labels every value by
    the two inner edges. *)
Lemma qcut_tertiles (xs : list cell) (e0 e1 e2 e3 : Q) :
  map (fun p => quantile p xs) (linspace01 3) = [Some e0; Some e1; Some e2; Some e3] ->
  e0 < e1 -> e1 < e2 -> e2 < e3 ->
  qcut xs 3 ["low"%string; "medium"%string; "high"%string]
  = inr (map (tertile e1 e2) xs).
Proof.
  intros Hbins H01 H12 H23.
  assert (Hq := Hbins). rewrite linspace01_3 in Hq. cbn [map] in Hq.
  injection Hq as Hq0 Hq1 Hq2 Hq3.
  destruct (quantile_lowest _ _ Hq0) as [_ Hlo].
  destruct (quantile_highest _ _ Hq3) as [_ Hhi].
  unfold qcut. rewrite Hbins.
  unfold bins_to_cuts, unique.
  cbn [unique_from existsb cell_eqb orb].
  rewrite (Qeq_bool_gt e0 e1), (Qeq_bool_gt e1 e2), (Qeq_bool_gt e0 e2),
    (Qeq_bool_gt e2 e3), (Qeq_bool_gt e1 e3), (Qeq_bool_gt e0 e3) by lra.
  cbn [orb length Nat.ltb Nat.leb Nat.eqb andb negb Nat.sub hd].
  replace (has_duplicates ["low"%string; "medium"%string; "high"%string]) with false
    by (vm_compute; reflexivity).
  f_equal. apply map_ext_in. intros [x|] Hin; [|reflexivity].
  apply dropna_In in Hin.
  pose proof (Hlo x Hin) as Hx0. pose proof (Hhi x Hin) as Hx3.
  unfold tertile, feq, searchsorted_left, isna.
  cbn [filter flt length orb].
  destruct (Qeq_bool x e0) eqn:E0.
  - apply Qeq_bool_iff in E0.
    destruct (Qle_bool_spec x e1); [reflexivity | lra].
  - apply Qeq_bool_neq in E0.
    destruct (Qle_bool_spec x e0); [lra|].
    destruct (Qle_bool_spec x e1); destruct (Qle_bool_spec x e2);
      destruct (Qle_bool_spec x e3); try lra; reflexivity.
Qed.

Lemma qcut_tied_prices :
  qcut (column col_price tied_prices) 3 ["low"%string; "medium"%string; "high"%string]
  = inr [Some "low"%string; Some "low"%string; Some "low"%string;
         Some "high"%string; Some "high"%string].
Proof. vm_compute. reflexivity. Qed.

(** The four edges of a column with a value exist and do not decrease. *)
Lemma edges_exist (xs : list cell) :
  dropna xs <> [] ->
  exists e0 e1 e2 e3 : Q,
    map (fun p => quantile p xs) (linspace01 3) = [Some e0; Some e1; Some e2; Some e3] /\
    e0 <= e1 /\ e1 <= e2 /\ e2 <= e3.
Proof.
  intros Hne. rewrite linspace01_3. cbn [map].
  destruct (quantile_some (0 # 3) xs) as [e0 E0]; auto; try (unfold Qle; simpl; lia).
  destruct (quantile_some (1 # 3) xs) as [e1 E1]; auto; try (unfold Qle; simpl; lia).
  destruct (quantile_some (2 # 3) xs) as [e2 E2]; auto; try (unfold Qle; simpl; lia).
  destruct (quantile_some (3 # 3) xs) as [e3 E3]; auto; try (unfold Qle; simpl; lia).
  exists e0, e1, e2, e3. rewrite E0, E1, E2, E3. split; [reflexivity|].
  split; [|split].
  - apply (quantile_monotone (0 # 3) (1 # 3) xs); auto; unfold Qle; simpl; lia.
  - apply (quantile_monotone (1 # 3) (2 # 3) xs); auto; unfold Qle; simpl; lia.
  - apply (quantile_monotone (2 # 3) (3 # 3) xs); auto; unfold Qle; simpl; lia.
Qed.

(** Four edges of which two neighbours coincide have fewer than four
    distinct values. *)
Lemma unique_short (e0 e1 e2 e3 : Q) :
  e0 == e1 \/ e1 == e2 \/ e2 == e3 ->
  (length (unique [Some e0; Some e1; Some e2; Some e3]) <? 4)%nat = true.
Proof.
  intros H. unfold unique. cbn [unique_from existsb cell_eqb orb].
  destruct (Qeq_bool e1 e0) eqn:E10; destruct (Qeq_bool e2 e1) eqn:E21;
    destruct (Qeq_bool e2 e0) eqn:E20; destruct (Qeq_bool e3 e2) eqn:E32;
    destruct (Qeq_bool e3 e1) eqn:E31; destruct (Qeq_bool e3 e0) eqn:E30;
    cbn [unique_from existsb cell_eqb orb length Nat.ltb Nat.leb];
    rewrite ?E10, ?E21, ?E20, ?E32, ?E31, ?E30;
    cbn [unique_from existsb cell_eqb orb length Nat.ltb Nat.leb];
    rewrite ?E10, ?E21, ?E20, ?E32, ?E31, ?E30;
    cbn [unique_from existsb cell_eqb orb length Nat.ltb Nat.leb];
    try reflexivity;
    apply Qeq_bool_neq in E10; apply Qeq_bool_neq in E21; apply Qeq_bool_neq in E32;
    destruct H as [H|[H|H]]; exfalso; [apply E10 | apply E21 | apply E32];
    now symmetry.
Qed.

Lemma qcut_duplicate_edges (xs : list cell) (labels : list string) (e0 e1 e2 e3 : Q) :
  map (fun p => quantile p xs) (linspace01 3) = [Some e0; Some e1; Some e2; Some e3] ->
  e0 == e1 \/ e1 == e2 \/ e2 == e3 ->
  qcut xs 3 labels = inl bin_edges_error.
Proof.
  intros Hb H. unfold qcut. rewrite Hb. unfold bins_to_cuts.
  change (length [Some e0; Some e1; Some e2; Some e3]) with 4%nat.
  rewrite (unique_short _ _ _ _ H). reflexivity.
Qed.

(** C7, as stated, fails: the prices [10, 20, 20, 30, 40] are what the
    outlier filter returns (on that very frame), they have 4 distinct
    values, and the bins are three "low", no "medium" and two "high": the
    middle group is empty, and the sizes 3 and 0 differ by more than
    [ceil(5/3) = 2]. *)
Lemma price_bin_counterexample :
  remove_price_outliers 0%nat col_price [tied_prices]
  = (inr 2%nat, [tied_prices; tied_prices; tied_prices]) /\
  length (unique (column col_price tied_prices)) = 4%nat /\
  exists (s' : store) (d' : DataFrame),
    normalize_and_discretize 0%nat col_price [tied_prices] = (inr 0%nat, s') /\
    nth_error s' 0%nat = Some d' /\
    price_bin d' = Some [Some "low"%string; Some "low"%string; Some "low"%string;
                         Some "high"%string; Some "high"%string] /\
    ~ In (Some "medium"%string)
         [Some "low"%string; Some "low"%string; Some "low"%string;
          Some "high"%string; Some "high"%string].
Proof.
  split; [vm_compute; reflexivity|]. split; [vm_compute; reflexivity|].
  do 2 eexists.
  rewrite (normalize_and_discretize_run [tied_prices] 0%nat tied_prices col_price eq_refl).
  rewrite qcut_tied_prices.
  split; [reflexivity|]. split; [reflexivity|]. split; [reflexivity|].
  simpl. intros [E|[E|[E|[E|[E|E]]]]]; try discriminate E; exact E.
Qed.

(** In binary64 an inner edge can come out below the price it equals in
    exact arithmetic.  On the prices 1 to 7 the 1/3 quantile is the price
    3; on doubles the level 1/3, handed on as a percentage and divided by
    100 again, is a little less than 1/3, the position a little less than
    2, and the edge the double next below 3. *)
Lemma tertile_edge_rounding :
  quantile64 (1 / 3) (map float_of_nat [1; 2; 3; 4; 5; 6; 7]%nat)
  = 0x1.7ffffffffffffp1%float /\
  (0x1.7ffffffffffffp1 <? 3)%float = true /\
  cell_is (quantile (1 # 3) (column col_price (frame_of_prices [1; 2; 3; 4; 5; 6; 7]))) 3.
Proof.
  split; [vm_compute; reflexivity|]. split; [vm_compute; reflexivity|].
  eexists. split; [vm_compute; reflexivity | reflexivity].
Qed.

Lemma tertile_tertile_label (e1 e2 : Q) (xs : list cell) :
  e1 < e2 -> Forall2 (tertile_label e1 e2) xs (map (tertile e1 e2) xs).
Proof.
  intros H12. induction xs as [|[x|] xs IH]; constructor; auto; [|reflexivity].
  unfold tertile_label, tertile.
  destruct (Qle_bool_spec x e1); destruct (Qle_bool_spec x e2);
    repeat split; intros; auto; lra.
Qed.

Lemma tertile_labelled (e1 e2 : Q) (xs : list cell) :
  Forall2 labelled xs (map (tertile e1 e2) xs).
Proof.
  induction xs as [|[x|] xs IH]; constructor; auto; [|reflexivity].
  unfold labelled, tertile, bin_labels. cbn [map In].
  destruct (Qle_bool x e1); [auto|]. destruct (Qle_bool x e2); auto.
Qed.

(** C7, amended.  Take a price column of whole numbers of magnitude at
    most [2^20], in a frame of at most [2^20] rows, whose four edges (the
    linear-interpolation quantiles at 0, 1/3, 2/3 and 1) increase
    strictly.  Then the feature deriver succeeds and labels every row by
    the two inner edges: "low" below the 1/3 quantile, "medium" between
    the two, "high" above the 2/3 quantile, so the labels ascend with the
    price; a price that sits on an inner edge gets one of the two
    neighbouring labels (the lower one in exact arithmetic; in binary64
    the edge may come out one rounding below the price); a row without a
    price gets no label.  The groups "low" and "high" are not empty.  The
    edges are multiples of 1/3: two of them, and a price and an edge that
    differ, are at least 1/3 apart, which on such a column no rounding
    error of the script comes near. *)
Theorem price_bin_tertiles
  (s : store) (df : ref) (d : DataFrame) (c : numcol) (e0 e1 e2 e3 : Q) :
  nth_error s df = Some d ->
  whole_column (2 ^ 20) (column c d) ->
  (Z.of_nat (length (rows d)) <= 2 ^ 20)%Z ->
  map (fun p => quantile p (column c d)) (linspace01 3)
  = [Some e0; Some e1; Some e2; Some e3] ->
  e0 < e1 -> e1 < e2 -> e2 < e3 ->
  exists (s' : store) (d' : DataFrame) (bins : list (option string)),
    normalize_and_discretize df c s = (inr df, s') /\
    nth_error s' df = Some d' /\
    price_bin d' = Some bins /\
    Forall2 (tertile_label e1 e2) (column c d) bins /\
    In (Some "low"%string) bins /\
    In (Some "high"%string) bins /\
    e0 + (1 # 3) <= e1 /\ e1 + (1 # 3) <= e2 /\ e2 + (1 # 3) <= e3 /\
    forall x, In (Some x) (column c d) ->
      (x < e1 -> x + (1 # 3) <= e1) /\ (e1 < x -> e1 + (1 # 3) <= x) /\
      (x < e2 -> x + (1 # 3) <= e2) /\ (e2 < x -> e2 + (1 # 3) <= x).
Proof.
  intros H Hw _ Hbins H01 H12 H23.
  rewrite (normalize_and_discretize_run _ _ _ _ H).
  rewrite (qcut_tertiles _ _ _ _ _ Hbins H01 H12 H23).
  do 3 eexists. split; [reflexivity|].
  split; [apply (nth_error_update_same _ _ _ _ H)|].
  split; [reflexivity|].
  split; [now apply tertile_tertile_label|].
  rewrite linspace01_3 in Hbins. cbn [map] in Hbins.
  injection Hbins as Hq0 Hq1 Hq2 Hq3.
  destruct (quantile_lowest _ _ Hq0) as [(x & Hx & Ex) _].
  destruct (quantile_highest _ _ Hq3) as [(y & Hy & Ey) _].
  split.
  { apply in_map_iff. exists (Some x). split; [|now apply dropna_In].
    unfold tertile. destruct (Qle_bool_spec x e1); [reflexivity | lra]. }
  split.
  { apply in_map_iff. exists (Some y). split; [|now apply dropna_In].
    unfold tertile.
    destruct (Qle_bool_spec y e1); [lra|].
    destruct (Qle_bool_spec y e2); [lra | reflexivity]. }
  destruct (quantile_grid 0 3 _ _ _ ltac:(lia) Hw Hq0) as (k0 & G0 & _).
  destruct (quantile_grid 1 3 _ _ _ ltac:(lia) Hw Hq1) as (k1 & G1 & _).
  destruct (quantile_grid 2 3 _ _ _ ltac:(lia) Hw Hq2) as (k2 & G2 & _).
  destruct (quantile_grid 3 3 _ _ _ ltac:(lia) Hw Hq3) as (k3 & G3 & _).
  change (inject_Z 3) with 3 in G0, G1, G2, G3.
  split; [exact (thirds_gap _ _ _ _ G0 G1 H01)|].
  split; [exact (thirds_gap _ _ _ _ G1 G2 H12)|].
  split; [exact (thirds_gap _ _ _ _ G2 G3 H23)|].
  intros v Hv. apply dropna_In in Hv.
  destruct (whole_column_In _ _ _ Hw Hv) as (z & Ez & _).
  assert (Gv : 3 * v == inject_Z (3 * z))
    by (rewrite inject_Z_mult, Ez; reflexivity).
  repeat split; intros L.
  - exact (thirds_gap _ _ _ _ Gv G1 L).
  - exact (thirds_gap _ _ _ _ G1 Gv L).
  - exact (thirds_gap _ _ _ _ Gv G2 L).
  - exact (thirds_gap _ _ _ _ G2 Gv L).
Qed.

Lemma price_bin_tertiles_witness :
  nth_error [three_prices] 0%nat = Some three_prices /\
  whole_column (2 ^ 20) (column col_price three_prices) /\
  (Z.of_nat (length (rows three_prices)) <= 2 ^ 20)%Z /\
  map (fun p => quantile p (column col_price three_prices)) (linspace01 3)
  = [Some (30 # 3); Some (50 # 3); Some (70 # 3); Some (90 # 3)] /\
  30 # 3 < 50 # 3 /\ 50 # 3 < 70 # 3 /\ 70 # 3 < 90 # 3 /\
  exists (s' : store) (d' : DataFrame) (bins : list (option string)),
    normalize_and_discretize 0%nat col_price [three_prices] = (inr 0%nat, s') /\
    nth_error s' 0%nat = Some d' /\
    price_bin d' = Some bins /\
    In (Some "low"%string) bins /\
    In (Some "high"%string) bins.
Proof.
  assert (Hw : whole_column (2 ^ 20) (column col_price three_prices))
    by (repeat constructor).
  assert (Hn : (Z.of_nat (length (rows three_prices)) <= 2 ^ 20)%Z)
    by (vm_compute; discriminate).
  assert (Hb : map (fun p => quantile p (column col_price three_prices)) (linspace01 3)
               = [Some (30 # 3); Some (50 # 3); Some (70 # 3); Some (90 # 3)])
    by (vm_compute; reflexivity).
  assert (H01 : 30 # 3 < 50 # 3) by reflexivity.
  assert (H12 : 50 # 3 < 70 # 3) by reflexivity.
  assert (H23 : 70 # 3 < 90 # 3) by reflexivity.
  split; [reflexivity|]. split; [exact Hw|]. split; [exact Hn|]. split; [exact Hb|].
  split; [exact H01|]. split; [exact H12|]. split; [exact H23|].
  destruct (price_bin_tertiles [three_prices] 0%nat three_prices col_price
              _ _ _ _ eq_refl Hw Hn Hb H01 H12 H23)
    as (s' & d' & bins & Hrun & Hd & Hpb & _ & Hlow & Hhigh & _).
  exists s', d', bins. repeat split; assumption.
Defined.

(** ** What pd.qcut returns *)

Lemma qcut_no_values (xs : list cell) (labels : list string) :
  dropna xs = [] -> qcut xs 3 labels = inl bin_edges_error.
Proof.
  intros E. unfold qcut. rewrite linspace01_3. cbn [map].
  rewrite !(quantile_none _ _ E). reflexivity.
Qed.

(** When [pd.qcut] into tertiles returns, its four edges were strictly
    increasing and it has labelled every value by the two inner ones. *)
Lemma qcut_returns (xs : list cell) (bins : list (option string)) :
  qcut xs 3 bin_labels = inr bins ->
  exists e0 e1 e2 e3 : Q,
    map (fun p => quantile p xs) (linspace01 3) = [Some e0; Some e1; Some e2; Some e3] /\
    e0 < e1 /\ e1 < e2 /\ e2 < e3 /\
    bins = map (tertile e1 e2) xs.
Proof.
  intros Hq.
  assert (Hne : dropna xs <> []).
  { intros E. rewrite (qcut_no_values _ _ E) in Hq. discriminate. }
  destruct (edges_exist _ Hne) as (e0 & e1 & e2 & e3 & Hb & H01 & H12 & H23).
  exists e0, e1, e2, e3. split; [exact Hb|].
  destruct (Qlt_le_dec e0 e1) as [L0|L0].
  2:{ rewrite (qcut_duplicate_edges _ _ _ _ _ _ Hb) in Hq by (left; lra). discriminate. }
  destruct (Qlt_le_dec e1 e2) as [L1|L1].
  2:{ rewrite (qcut_duplicate_edges _ _ _ _ _ _ Hb) in Hq by (right; left; lra).
      discriminate. }
  destruct (Qlt_le_dec e2 e3) as [L2|L2].
  2:{ rewrite (qcut_duplicate_edges _ _ _ _ _ _ Hb) in Hq by (right; right; lra).
      discriminate. }
  repeat split; auto.
  unfold bin_labels in Hq. rewrite (qcut_tertiles _ _ _ _ _ Hb L0 L1 L2) in Hq.
  now injection Hq as <-.
Qed.

(** ** Which frames a stage touches *)

Lemma qcut_three_prices :
  qcut (column col_price three_prices) 3 ["low"%string; "medium"%string; "high"%string]
  = inr [Some "low"%string; Some "medium"%string; Some "high"%string].
Proof. vm_compute. reflexivity. Qed.

(** C9, as stated, fails for the feature deriver: on a frame of three
    listings it returns the reference it was given, allocates no frame, and
    the frame behind that reference is no longer the one passed in (it has
    gained the [price_zscore] column). *)
Lemma feature_deriver_mutates_counterexample :
  exists s' : store,
    normalize_and_discretize 0%nat col_price [three_prices] = (inr 0%nat, s') /\
    length s' = 1%nat /\
    nth_error s' 0%nat <> Some three_prices.
Proof.
  eexists.
  rewrite (normalize_and_discretize_run [three_prices] 0%nat three_prices col_price eq_refl).
  rewrite qcut_three_prices.
  split; [reflexivity|]. split; [reflexivity|].
  cbn [update nth_error]. intros E. injection E as E. discriminate E.
Qed.

(** C9, amended.  The outlier filter returns a reference that was not in
    the store, to a new frame that holds the rows of the input its mask
    keeps; every frame that was in the store, the one passed to it
    included, is as it was.  The feature deriver allocates nothing: it
    assigns [price_zscore], one entry per row, on the frame passed to it;
    if [pd.qcut] then raises, [price_bin] is as it was; otherwise it
    assigns [price_bin] too, one entry per row (one of the three labels
    for a price, none for a missing price), and returns the reference it
    was given.  The rows of that frame and every other frame of the store
    are as they were. *)
Theorem stages_frame_effect (s : store) (df : ref) (d : DataFrame) (c : numcol) :
  nth_error s df = Some d ->
  (exists (l : ref) (s' : store) (out : DataFrame) (keep : cell -> bool),
     remove_price_outliers df c s = (inr l, s') /\
     (length s <= l)%nat /\
     nth_error s' l = Some out /\
     rows out = filter (fun r => keep (getcol c r)) (rows d) /\
     nth_error s' df = Some d /\
     forall l', (l' < length s)%nat -> nth_error s' l' = nth_error s l') /\
  (exists (res : exn + ref) (s' : store) (d' : DataFrame) (z : list rcell),
     normalize_and_discretize df c s = (res, s') /\
     length s' = length s /\
     nth_error s' df = Some d' /\
     rows d' = rows d /\
     price_zscore d' = Some z /\
     length z = length (rows d) /\
     (forall l, res = inr l ->
        l = df /\
        exists bins : list (option string),
          price_bin d' = Some bins /\
          length bins = length (rows d) /\
          Forall2 labelled (column c d) bins) /\
     (forall e, res = inl e -> price_bin d' = price_bin d) /\
     forall l', l' <> df -> nth_error s' l' = nth_error s l').
Proof.
  intros H. split.
  - do 4 eexists. split; [apply (remove_price_outliers_run _ _ _ _ H)|].
    split; [lia|].
    split; [apply nth_error_snoc2|].
    split; [apply rows_getitem_mask_column|].
    assert (Hl : (df < length s)%nat) by (apply nth_error_Some; congruence).
    split; [now rewrite nth_error_app1|].
    intros l' Hl'. now apply nth_error_app1.
  - rewrite (normalize_and_discretize_run _ _ _ _ H).
    destruct (qcut (column c d) 3 ["low"%string; "medium"%string; "high"%string])
      as [e|bins] eqn:Eq; do 4 eexists;
      (split; [reflexivity|]);
      (split; [apply length_update|]);
      (split; [apply (nth_error_update_same _ _ _ _ H)|]);
      (split; [reflexivity|]);
      (split; [reflexivity|]);
      (split; [unfold column; now rewrite !length_map|]).
    + split; [discriminate|].
      split; [reflexivity|].
      intros l' Hl'. apply nth_error_update_other. congruence.
    + split.
      * intros l E. injection E as <-. split; [reflexivity|].
        exists bins. split; [reflexivity|].
        destruct (qcut_returns _ _ Eq) as (e0 & e1 & e2 & e3 & _ & _ & _ & _ & ->).
        split; [unfold column; now rewrite !length_map|].
        apply tertile_labelled.
      * split; [discriminate|].
        intros l' Hl'. apply nth_error_update_other. congruence.
Qed.

Lemma stages_frame_effect_witness :
  nth_error [three_prices] 0%nat = Some three_prices /\
  (exists (l : ref) (s' : store) (out : DataFrame),
     remove_price_outliers 0%nat col_price [three_prices] = (inr l, s') /\
     (1 <= l)%nat /\
     nth_error s' l = Some out /\
     nth_error s' 0%nat = Some three_prices) /\
  (exists (res : exn + ref) (s' : store) (d' : DataFrame) (z : list rcell),
     normalize_and_discretize 0%nat col_price [three_prices] = (res, s') /\
     length s' = 1%nat /\
     nth_error s' 0%nat = Some d' /\
     price_zscore d' = Some z).
Proof.
  split; [reflexivity|].
  destruct (stages_frame_effect [three_prices] 0%nat three_prices col_price eq_refl)
    as [(l & s1 & out & keep & Hrun1 & Hl & Hout & _ & Hin & _)
        (res & s2 & d' & z & Hrun2 & Hlen & Hd' & _ & Hz & _)].
  split.
  - exists l, s1, out. repeat split; assumption.
  - exists res, s2, d', z. repeat split; assumption.
Defined.

(** ** anova_test *)

Lemma sinsert_perm (x : string) (l : list string) : Permutation (sinsert x l) (x :: l).
Proof.
  induction l as [|y l IH]; simpl; auto.
  destruct (String.leb x y); auto.
  rewrite IH. apply perm_swap.
Qed.

Lemma ssort_perm (l : list string) : Permutation (ssort l) l.
Proof.
  induction l as [|x l IH]; simpl; auto.
  rewrite sinsert_perm. now constructor.
Qed.

(** Every key of [groupby] is the group of some row. *)
Lemma groupby_keys (d : DataFrame) (k : string) (g : list Row) :
  In (k, g) (groupby_neighbourhood_group d) ->
  g = filter (in_group k) (rows d) /\
  exists r, In r (rows d) /\ neighbourhood_group r = Some k.
Proof.
  unfold groupby_neighbourhood_group. intros Hin.
  apply in_map_iff in Hin. destruct Hin as (k' & E & Hk).
  injection E as -> <-. split; auto.
  apply (Permutation_in _ (ssort_perm _)) in Hk.
  apply nodup_In in Hk. apply dropna_In in Hk.
  apply in_map_iff in Hk. destruct Hk as (r & Er & Hr). eauto.
Qed.


Lemma anova_test_run (fdtrc : nat -> nat -> Q -> R) (s : store) (df : ref) (d : DataFrame) :
  nth_error s df = Some d ->
  anova_test fdtrc df s = (f_oneway fdtrc (price_groups d), s).
Proof.
  intros H. unfold anova_test, bind, get_frame, lift. now rewrite H.
Qed.


(** *** Sums over rationals *)







(** *** SciPy's computation is the sum-of-squares decomposition *)






Lemma existsb_false {A} (p : A -> bool) (l : list A) :
  (forall x, In x l -> p x = false) -> existsb p l = false.
Proof.
  intros H. induction l as [|x l IH]; simpl; auto.
  rewrite H by (now left). apply IH. intros y Hy. apply H. now right.
Qed.







(* ================================================================= *)
(** * Further properties of the stages *)

(** ** The outlier filter: its bounds and what it keeps *)

(** The frame the filter returns, by its quartiles. *)
Lemma remove_price_outliers_rows
  (s : store) (df : ref) (d : DataFrame) (c : numcol) (q1 q3 : Q) :
  nth_error s df = Some d ->
  quantile (1 # 4) (column c d) = Some q1 ->
  quantile (3 # 4) (column c d) = Some q3 ->
  exists out : DataFrame,
    remove_price_outliers df c s = (inr (S (length s)), s ++ [out; out]) /\
    rows out
    = filter (fun r => in_bounds (Some (lower_fence q1 q3)) (Some (upper_fence q1 q3))
                                 (getcol c r)) (rows d).
Proof.
  intros H E1 E3. eexists.
  split; [apply (remove_price_outliers_run _ _ _ _ H)|].
  rewrite rows_getitem_mask_column, E1, E3. reflexivity.
Qed.

Lemma in_bounds_value (lo hi v : Q) :
  lo <= v -> v <= hi -> in_bounds (Some lo) (Some hi) (Some v) = true.
Proof.
  intros H1 H2. unfold in_bounds, fge, fle.
  apply andb_true_iff. now rewrite !Qle_bool_iff.
Qed.






(** X3.  When all the values of the filtered column are equal, the
    interquartile range is zero, both bounds are that value, and the filter
    keeps exactly the rows that have a value: nothing but the rows with a
    missing value is removed. *)
Theorem remove_price_outliers_constant_column
  (s : store) (df : ref) (d : DataFrame) (c : numcol) (m : Q) :
  nth_error s df = Some d ->
  dropna (column c d) <> [] ->
  (forall x, In (Some x) (column c d) -> x == m) ->
  exists out : DataFrame,
    remove_price_outliers df c s = (inr (S (length s)), s ++ [out; out]) /\
    rows out = filter (fun r => negb (isna (getcol c r))) (rows d).
Proof.
  intros H Hne Hall.
  assert (Hall' : forall x, In x (dropna (column c d)) -> x == m).
  { intros x Hx. apply Hall. now apply dropna_In. }
  destruct (quantile_constant (1 # 4) m (column c d)) as (q1 & E1 & Q1); auto; try lra.
  destruct (quantile_constant (3 # 4) m (column c d)) as (q3 & E3 & Q3); auto; try lra.
  destruct (remove_price_outliers_rows _ _ _ _ _ _ H E1 E3) as (out & Hrun & Hrows).
  exists out. split; [exact Hrun|].
  rewrite Hrows. apply filter_ext_in. intros r Hr.
  destruct (getcol c r) as [x|] eqn:Ex; [|reflexivity].
  assert (Hx : x == m).
  { apply Hall. unfold column. apply in_map_iff. eauto. }
  apply in_bounds_value; unfold lower_fence, upper_fence; lra.
Qed.

Lemma remove_price_outliers_constant_column_witness :
  nth_error [constant_prices] 0%nat = Some constant_prices /\
  dropna (column col_price constant_prices) <> [] /\
  (forall x, In (Some x) (column col_price constant_prices) -> x == 75) /\
  exists out : DataFrame,
    remove_price_outliers 0%nat col_price [constant_prices]
    = (inr 2%nat, [constant_prices] ++ [out; out]) /\
    length (rows out) = 3%nat.
Proof.
  assert (Hne : dropna (column col_price constant_prices) <> []) by discriminate.
  assert (Hall : forall x, In (Some x) (column col_price constant_prices) -> x == 75).
  { simpl. intros x [E|[E|[E|[E|E]]]]; try discriminate E; try contradiction;
      injection E as <-; reflexivity. }
  split; [reflexivity|]. split; [exact Hne|]. split; [exact Hall|].
  destruct (remove_price_outliers_constant_column [constant_prices] 0%nat
              constant_prices col_price 75 eq_refl Hne Hall) as (out & Hrun & Hrows).
  exists out. split; [exact Hrun|]. rewrite Hrows. reflexivity.
Defined.

(** ** What load_data hands on *)

Lemma load_data_loaded (fs : string -> option DataFrame) (parse_date : string -> option Z)
  (file_path : string) (s : store) (t : DataFrame) :
  fs file_path = Some t ->
  load_data fs parse_date file_path s
  = (inr (S (length s)), s ++ [parsed_table parse_date t; loaded parse_date t]).
Proof.
  intros H. exact (load_data_run fs parse_date file_path s t H).
Qed.

Lemma rows_loaded (parse_date : string -> option Z) (t : DataFrame) :
  rows (loaded parse_date t)
  = map (cleaned parse_date) (filter has_categories (rows t)).
Proof.
  unfold loaded. rewrite rows_dropna_subset. unfold parsed_table. cbn [rows].
  rewrite filter_map_comm. reflexivity.
Qed.

Lemma to_datetime_is_datetime (parse_date : string -> option Z) (c : date_cell) :
  is_datetime (to_datetime parse_date c).
Proof.
  destruct c as [|txt|ts]; simpl; auto. destruct (parse_date txt); exact I.
Qed.

(** X4.  After [load_data] no [last_review] is text any more: in the frame
    it returns, and in the table it leaves behind, every date is a
    timestamp or missing, and no error was raised for a text that is not a
    date. *)
Theorem load_data_coerces_dates (fs : string -> option DataFrame)
  (parse_date : string -> option Z) (file_path : string) (s : store) (t : DataFrame) :
  fs file_path = Some t ->
  exists mid out : DataFrame,
    load_data fs parse_date file_path s = (inr (S (length s)), s ++ [mid; out]) /\
    Forall (fun r => is_datetime (last_review r)) (rows mid) /\
    Forall (fun r => is_datetime (last_review r)) (rows out).
Proof.
  intros H. do 2 eexists.
  split; [apply (load_data_loaded _ _ _ _ _ H)|].
  split.
  - unfold parsed_table. cbn [rows].
    apply Forall_forall. intros r' Hin. apply in_map_iff in Hin.
    destruct Hin as (r & <- & _). apply to_datetime_is_datetime.
  - rewrite rows_loaded.
    apply Forall_forall. intros r' Hin. apply in_map_iff in Hin.
    destruct Hin as (r & <- & _). apply to_datetime_is_datetime.
Qed.

Lemma load_data_coerces_dates_witness :
  raw_fs "AB_NYC_2019.csv" = Some raw_table /\
  exists mid out : DataFrame,
    load_data raw_fs one_date "AB_NYC_2019.csv" []
    = (inr 1%nat, [] ++ [mid; out]) /\
    Forall (fun r => is_datetime (last_review r)) (rows out).
Proof.
  split; [reflexivity|].
  destruct (load_data_coerces_dates raw_fs one_date "AB_NYC_2019.csv" [] raw_table
              eq_refl) as (mid & out & Hrun & _ & Hall).
  exists mid, out. split; [exact Hrun | exact Hall].
Defined.

(** ** The stages in the order of main *)

(** What a run of [main] does, stage by stage: it fails where [read_csv],
    [pd.qcut] or [f_oneway] fails, and the stages after the failing one do
    not run. *)
Lemma main_run (fs : string -> option DataFrame) (parse_date : string -> option Z)
  (fdtrc : nat -> nat -> Q -> R) (csv_path : string) (s : store) (t : DataFrame) :
  fs csv_path = Some t ->
  let d2 := main_filtered parse_date t in
  let s2 := s ++ [parsed_table parse_date t; loaded parse_date t; d2; d2] in
  let l := (length s + 3)%nat in
  main fs parse_date fdtrc csv_path s =
    match qcut (column col_price d2) 3 bin_labels with
    | inl e =>
        (inl e, update l (mkFrame (rows d2) (Some (zscores col_price d2)) (price_bin d2)) s2)
    | inr bins =>
        let d3 := mkFrame (rows d2) (Some (zscores col_price d2)) (Some bins) in
        match f_oneway fdtrc (price_groups d3) with
        | inl e => (inl e, update l d3 s2)
        | inr r => (inr (summary_table d3, r), update l d3 s2)
        end
    end.
Proof.
  intros H. cbv zeta.
  set (d1 := loaded parse_date t). set (d2 := main_filtered parse_date t).
  set (s1 := s ++ [parsed_table parse_date t; d1]).
  assert (H1 : nth_error s1 (S (length s)) = Some d1) by apply nth_error_snoc2.
  assert (Hfilter : remove_price_outliers (S (length s)) col_price s1
                    = (inr (S (length s1)), s1 ++ [d2; d2]))
    by exact (remove_price_outliers_run s1 _ d1 col_price H1).
  assert (Hs2 : s1 ++ [d2; d2] = s ++ [parsed_table parse_date t; d1; d2; d2])
    by (unfold s1; now rewrite <- app_assoc).
  assert (Hl : S (length s1) = (length s + 3)%nat)
    by (unfold s1; rewrite length_app; simpl; lia).
  rewrite Hs2, Hl in Hfilter.
  set (s2 := s ++ [parsed_table parse_date t; d1; d2; d2]) in *.
  assert (H2 : nth_error s2 (length s + 3) = Some d2).
  { unfold s2. rewrite nth_error_app2 by lia.
    replace (length s + 3 - length s)%nat with 3%nat by lia. reflexivity. }
  unfold main.
  unfold bind at 1. rewrite (load_data_loaded _ _ _ _ _ H). fold d1 s1.
  unfold bind at 1. rewrite Hfilter.
  unfold bind at 1. rewrite (normalize_and_discretize_run _ _ _ _ H2).
  fold (zscores col_price d2). fold bin_labels.
  destruct (qcut (column col_price d2) 3 bin_labels) as [e|bins]; [reflexivity|].
  set (d3 := mkFrame (rows d2) (Some (zscores col_price d2)) (Some bins)).
  assert (H3 : nth_error (update (length s + 3) d3 s2) (length s + 3) = Some d3)
    by apply (nth_error_update_same _ _ _ _ H2).
  unfold bind at 1. rewrite (descriptive_statistics_run _ _ _ H3).
  fold (summary_table d3).
  unfold bind at 1. rewrite (anova_test_run fdtrc _ _ _ H3).
  destruct (f_oneway fdtrc (price_groups d3)); reflexivity.
Qed.

Lemma qcut_raises_value_error (x : list cell) (q : nat) (labels : list string) (e : exn) :
  qcut x q labels = inl e -> exn_class e = "ValueError"%string.
Proof.
  unfold qcut, bins_to_cuts.
  repeat match goal with
         | |- context [if ?b then _ else _] => destruct b
         end; intros E; try discriminate E; injection E as <-; reflexivity.
Qed.

Lemma rows_iqr_filtered (c : numcol) (d : DataFrame) :
  rows (iqr_filtered c d)
  = filter (fun r =>
              in_bounds
                (fsub (quantile (1 # 4) (column c d))
                      (fmul (Some (3 # 2))
                            (fsub (quantile (3 # 4) (column c d))
                                  (quantile (1 # 4) (column c d)))))
                (fadd (quantile (3 # 4) (column c d))
                      (fmul (Some (3 # 2))
                            (fsub (quantile (3 # 4) (column c d))
                                  (quantile (1 # 4) (column c d)))))
                (getcol c r)) (rows d).
Proof.
  unfold iqr_filtered. cbv zeta. apply rows_getitem_mask_column.
Qed.

(** The rows that pass the filter have a value in the filtered column. *)
Lemma iqr_filtered_has_value (c : numcol) (d : DataFrame) (r : Row) :
  In r (rows (iqr_filtered c d)) -> In r (rows d) /\ getcol c r <> None.
Proof.
  rewrite rows_iqr_filtered, filter_In. intros [Hin Hb]. split; auto.
  intros E. rewrite E in Hb. discriminate.
Qed.

Lemma loaded_rows_clean (parse_date : string -> option Z) (t : DataFrame) (r : Row) :
  In r (rows (loaded parse_date t)) ->
  neighbourhood_group r <> None /\ room_type r <> None /\ reviews_per_month r <> None.
Proof.
  rewrite rows_loaded. intros Hin. apply in_map_iff in Hin.
  destruct Hin as (r0 & <- & Hin). apply filter_In in Hin. destruct Hin as [_ Hc].
  unfold has_categories in Hc. apply andb_true_iff in Hc. destruct Hc as [Hg Hr].
  unfold cleaned. cbn.
  destruct (neighbourhood_group r0), (room_type r0); try discriminate.
  repeat split; try discriminate.
  destruct (reviews_per_month r0); discriminate.
Qed.

(** X6.  The first two stages of [main] together: the frame that reaches
    the feature deriver is a new one in which every row has its
    neighbourhood group, room type, review rate and price; the cleaning of
    [load_data] survives the outlier filter, which adds that no price is
    missing. *)
Theorem loaded_and_filtered_rows_complete (fs : string -> option DataFrame)
  (parse_date : string -> option Z) (csv_path : string) (s : store) (t : DataFrame) :
  fs csv_path = Some t ->
  exists (s' : store) (out : DataFrame),
    (df <- load_data fs parse_date csv_path ;; remove_price_outliers df col_price) s
    = (inr (length s + 3)%nat, s') /\
    nth_error s' (length s + 3) = Some out /\
    Forall complete_row (rows out).
Proof.
  intros H.
  set (d1 := loaded parse_date t).
  set (s1 := s ++ [parsed_table parse_date t; d1]).
  assert (H1 : nth_error s1 (S (length s)) = Some d1) by apply nth_error_snoc2.
  assert (Hl : S (length s1) = (length s + 3)%nat)
    by (unfold s1; rewrite length_app; simpl; lia).
  exists (s1 ++ [iqr_filtered col_price d1; iqr_filtered col_price d1]),
         (iqr_filtered col_price d1).
  split.
  - unfold bind. rewrite (load_data_loaded _ _ _ _ _ H). fold d1 s1.
    rewrite (remove_price_outliers_run s1 _ d1 col_price H1). now rewrite Hl.
  - split.
    + rewrite <- Hl. apply nth_error_snoc2.
    + apply Forall_forall. intros r Hr.
      destruct (iqr_filtered_has_value _ _ _ Hr) as [Hin Hp].
      destruct (loaded_rows_clean _ _ _ Hin) as (Hg & Hrt & Hrpm).
      unfold complete_row. auto.
Qed.

Lemma loaded_and_filtered_rows_complete_witness :
  raw_fs "AB_NYC_2019.csv" = Some raw_table /\
  exists (s' : store) (out : DataFrame),
    (df <- load_data raw_fs no_dates "AB_NYC_2019.csv" ;;
     remove_price_outliers df col_price) []
    = (inr 3%nat, s') /\
    nth_error s' 3%nat = Some out /\
    Forall complete_row (rows out).
Proof.
  split; [reflexivity|].
  exact (loaded_and_filtered_rows_complete raw_fs no_dates "AB_NYC_2019.csv" []
           raw_table eq_refl).
Defined.

(** On a column whose values are all equal the filter keeps the rows that
    have a value. *)
Lemma iqr_filtered_constant (c : numcol) (d : DataFrame) (m : Q) :
  dropna (column c d) <> [] ->
  (forall x, In (Some x) (column c d) -> x == m) ->
  rows (iqr_filtered c d) = filter (fun r => negb (isna (getcol c r))) (rows d).
Proof.
  intros Hne Hall.
  assert (Hall' : forall x, In x (dropna (column c d)) -> x == m).
  { intros x Hx. apply Hall. now apply dropna_In. }
  destruct (quantile_constant (1 # 4) m (column c d)) as (q1 & E1 & Q1); auto; try lra.
  destruct (quantile_constant (3 # 4) m (column c d)) as (q3 & E3 & Q3); auto; try lra.
  rewrite rows_iqr_filtered, E1, E3. apply filter_ext_in. intros r Hr.
  destruct (getcol c r) as [x|] eqn:Ex; [|reflexivity].
  assert (Hx : x == m).
  { apply Hall. unfold column. apply in_map_iff. eauto. }
  apply in_bounds_value; lra.
Qed.

Lemma column_In (c : numcol) (d : DataFrame) (v : cell) :
  In v (column c d) <-> exists r, In r (rows d) /\ getcol c r = v.
Proof.
  unfold column. rewrite in_map_iff. split; intros (r & A & B); eauto.
Qed.

(** X7.  [main] on listings that all have the same price: when the rows
    of the file that have both categorical fields carry one price only
    (and at least one of them has a price), the run ends with the
    [ValueError] of [pd.qcut], before any statistic is computed. *)
Theorem main_constant_prices (fs : string -> option DataFrame)
  (parse_date : string -> option Z) (fdtrc : nat -> nat -> Q -> R)
  (csv_path : string) (s : store) (t : DataFrame) (m : Q) :
  fs csv_path = Some t ->
  (exists r, In r (rows t) /\ has_categories r = true /\ price r <> None) ->
  (forall r x, In r (rows t) -> has_categories r = true -> price r = Some x -> x == m) ->
  exists s' : store,
    main fs parse_date fdtrc csv_path s
    = (inl (Raise "ValueError" "Bin edges must be unique"), s').
Proof.
  intros H (r0 & Hr0 & Hc0 & Hp0) Hall.
  set (d1 := loaded parse_date t).
  assert (Hd1 : forall r, In r (rows d1) ->
                          exists r', In r' (rows t) /\ has_categories r' = true /\
                                     price r = price r').
  { intros r Hr. unfold d1 in Hr. rewrite rows_loaded in Hr.
    apply in_map_iff in Hr. destruct Hr as (r' & <- & Hr').
    apply filter_In in Hr'. exists r'. tauto. }
  assert (Hall1 : forall x, In (Some x) (column col_price d1) -> x == m).
  { intros x Hx. apply column_In in Hx. destruct Hx as (r & Hr & Ex).
    destruct (Hd1 r Hr) as (r' & Hr' & Hc' & Ep).
    apply (Hall r' x); auto. simpl in Ex. congruence. }
  assert (Hin0 : In (cleaned parse_date r0) (rows d1)).
  { unfold d1. rewrite rows_loaded. apply in_map. apply filter_In. auto. }
  assert (Hne1 : dropna (column col_price d1) <> []).
  { destruct (price r0) as [x0|] eqn:E0; [|congruence].
    assert (Hx : In x0 (dropna (column col_price d1))).
    { apply dropna_In, column_In. exists (cleaned parse_date r0). auto. }
    intros E. rewrite E in Hx. contradiction. }
  set (d2 := main_filtered parse_date t).
  assert (Hrows : rows d2 = filter (fun r => negb (isna (getcol col_price r))) (rows d1))
    by exact (iqr_filtered_constant col_price d1 m Hne1 Hall1).
  assert (Hall2 : forall x, In x (dropna (column col_price d2)) -> x == m).
  { intros x Hx. apply dropna_In, column_In in Hx. destruct Hx as (r & Hr & Ex).
    rewrite Hrows in Hr. apply filter_In in Hr. destruct Hr as [Hr _].
    apply Hall1. apply column_In. eauto. }
  assert (Hne2 : dropna (column col_price d2) <> []).
  { destruct (price r0) as [x0|] eqn:E0; [|congruence].
    assert (Hx : In x0 (dropna (column col_price d2))).
    { apply dropna_In, column_In. exists (cleaned parse_date r0). split; auto.
      rewrite Hrows. apply filter_In. split; auto.
      simpl. unfold cleaned. cbn. now rewrite E0. }
    intros E. rewrite E in Hx. contradiction. }
  rewrite (main_run fs parse_date fdtrc csv_path s t H). cbv zeta. fold d2.
  rewrite (qcut_constant m _ _ Hne2 Hall2).
  eexists. reflexivity.
Qed.

Lemma main_constant_prices_witness :
  single_listing_fs "one.csv" = Some (frame_of_prices [120]) /\
  (exists r, In r (rows (frame_of_prices [120])) /\
             has_categories r = true /\ price r <> None) /\
  (forall r x, In r (rows (frame_of_prices [120])) -> has_categories r = true ->
               price r = Some x -> x == 120) /\
  exists s' : store,
    main single_listing_fs no_dates no_pvalue "one.csv" []
    = (inl (Raise "ValueError" "Bin edges must be unique"), s').
Proof.
  assert (H1 : exists r, In r (rows (frame_of_prices [120])) /\
                         has_categories r = true /\ price r <> None).
  { exists (listing "Brooklyn" 120). split; [left; reflexivity|].
    split; [reflexivity | discriminate]. }
  assert (H2 : forall r x, In r (rows (frame_of_prices [120])) ->
                           has_categories r = true -> price r = Some x -> x == 120).
  { intros r x [<-|[]] _ E. injection E as <-. reflexivity. }
  split; [reflexivity|]. split; [exact H1|]. split; [exact H2|].
  exact (main_constant_prices single_listing_fs no_dates no_pvalue "one.csv" []
           (frame_of_prices [120]) 120 eq_refl H1 H2).
Defined.

(** ** When the feature deriver fails *)

(** X8.  A call of the feature deriver that fails leaves the frame half
    updated.  On a frame of the store the only exception is the
    [ValueError] of [pd.qcut]; when it is raised, [price_zscore] has
    already been assigned on the frame passed in, one entry per row, while
    [price_bin], the rows, and every other frame of the store are as they
    were. *)
Theorem normalize_and_discretize_failure
  (s s' : store) (df : ref) (d : DataFrame) (c : numcol) (e : exn) :
  nth_error s df = Some d ->
  normalize_and_discretize df c s = (inl e, s') ->
  exn_class e = "ValueError"%string /\
  qcut (column c d) 3 bin_labels = inl e /\
  exists (d' : DataFrame) (z : list rcell),
    nth_error s' df = Some d' /\
    rows d' = rows d /\
    price_zscore d' = Some z /\
    length z = length (rows d) /\
    price_bin d' = price_bin d /\
    length s' = length s /\
    forall l', l' <> df -> nth_error s' l' = nth_error s l'.
Proof.
  intros H Hrun.
  rewrite (normalize_and_discretize_run _ _ _ _ H) in Hrun.
  fold bin_labels in Hrun.
  destruct (qcut (column c d) 3 bin_labels) as [e'|bins] eqn:Eq; [|discriminate].
  injection Hrun as <- <-.
  split; [exact (qcut_raises_value_error _ _ _ _ Eq)|].
  split; [reflexivity|].
  do 2 eexists.
  split; [apply (nth_error_update_same _ _ _ _ H)|].
  split; [reflexivity|]. split; [reflexivity|].
  split; [unfold column; now rewrite !length_map|].
  split; [reflexivity|].
  split; [apply length_update|].
  intros l' Hl'. apply nth_error_update_other. congruence.
Qed.

Lemma normalize_and_discretize_failure_witness :
  nth_error [skewed_prices] 0%nat = Some skewed_prices /\
  exists (s' : store) (d' : DataFrame) (z : list rcell),
    normalize_and_discretize 0%nat col_price [skewed_prices]
    = (inl (Raise "ValueError" "Bin edges must be unique"), s') /\
    nth_error s' 0%nat = Some d' /\
    price_zscore d' = Some z /\
    price_bin d' = None.
Proof.
  split; [reflexivity|].
  assert (Hq : qcut (column col_price skewed_prices) 3 bin_labels = inl bin_edges_error)
    by (vm_compute; reflexivity).
  assert (Hrun : normalize_and_discretize 0%nat col_price [skewed_prices]
                 = (inl (Raise "ValueError" "Bin edges must be unique"),
                    update 0 (mkFrame (rows skewed_prices)
                                (Some (zscores col_price skewed_prices))
                                (price_bin skewed_prices)) [skewed_prices])).
  { rewrite (normalize_and_discretize_run [skewed_prices] 0%nat skewed_prices col_price
               eq_refl).
    fold bin_labels. rewrite Hq. reflexivity. }
  destruct (normalize_and_discretize_failure _ _ _ _ _ _
              (eq_refl : nth_error [skewed_prices] 0%nat = Some skewed_prices) Hrun)
    as (_ & _ & d' & z & Hd' & _ & Hz & _ & Hb & _).
  eexists. exists d', z. split; [exact Hrun|].
  split; [exact Hd'|]. split; [exact Hz | exact Hb].
Defined.

(** ** The z-scores follow the prices *)






(** ** The rows of the summary table *)






(** A standard deviation that is not zero needs two values. *)
Lemma std_nonzero_two_values (xs : list cell) (sd : R) :
  std 0 xs = Some sd -> sd <> 0%R -> (2 <= length (dropna xs))%nat.
Proof.
  intros Hstd Hsd.
  destruct (std_inv _ _ _ Hstd) as (v & Hv & ->).
  destruct (var_inv _ _ _ Hv) as (m & Hm & Hn & Ev).
  destruct (mean_inv _ _ Hm) as [_ Em].
  destruct (dropna xs) as [|x [|y l]] eqn:E; simpl in *; try lia.
  exfalso. apply Hsd.
  assert (Hv0 : v == 0).
  { rewrite Ev, Em. unfold Qsum, Qn. simpl. field. }
  rewrite (Qeq_eqR _ _ Hv0).
  replace (Q2R 0) with 0%R by (unfold Q2R; simpl; lra).
  apply sqrt_0.
Qed.

Lemma rvar_some (ddof : nat) (xs : list rcell) (mu : R) :
  (ddof < length (dropna xs))%nat -> rmean xs = Some mu ->
  rvar ddof xs
  = Some (Rsum (map (fun x => (x - mu) * (x - mu))%R (dropna xs))
          / INR (length (dropna xs) - ddof))%R.
Proof.
  intros Hn Hmu. unfold rvar.
  destruct (Nat.leb_spec (length (dropna xs)) ddof); [lia|]. now rewrite Hmu.
Qed.

(** A real column of population standard deviation 1 has the sample
    standard deviation [sqrt(N/(N-1))]. *)
Lemma rstd_sample_of_unit (xs : list rcell) (mu : R) :
  (2 <= length (dropna xs))%nat ->
  rmean xs = Some mu -> rstd 0 xs = Some 1%R ->
  rstd 1 xs
  = Some (sqrt (INR (length (dropna xs)) / (INR (length (dropna xs)) - 1)))%R.
Proof.
  intros Hn Hmu H0.
  set (n := length (dropna xs)) in *.
  set (SS := Rsum (map (fun x => (x - mu) * (x - mu))%R (dropna xs))).
  assert (HSS : (0 <= SS)%R) by apply (Rsum_squares_nonneg (fun x => (x - mu)%R)).
  assert (HnR : (2 <= INR n)%R) by (change 2%R with (INR 2); now apply le_INR).
  unfold rstd in *.
  rewrite (rvar_some 0 xs mu) in H0 by (fold n; auto; lia).
  rewrite (rvar_some 1 xs mu) by (fold n; auto; lia).
  fold n SS in H0 |- *. rewrite Nat.sub_0_r in H0.
  cbn [option_map] in *. injection H0 as H0.
  assert (E : (SS / INR n = 1)%R).
  { apply sqrt_inj; [| lra | now rewrite sqrt_1].
    apply Rmult_le_pos; auto. apply Rlt_le, Rinv_0_lt_compat. lra. }
  assert (ESS : SS = INR n).
  { apply (Rmult_eq_reg_r (/ INR n)); [|apply Rinv_neq_0_compat; lra].
    unfold Rdiv in E. rewrite E. field. lra. }
  rewrite minus_INR by lia. rewrite ESS. reflexivity.
Qed.

(** X11.  Called after the feature deriver, as [main] does,
    [descriptive_statistics] also reports a row for [price_zscore]: its
    count is the number N of prices, its mean is 0, and its standard
    deviation, which pandas takes with divisor N-1, is [sqrt(N/(N-1))], not
    1 (in exact arithmetic, for a price column whose standard deviation is
    not zero). *)
Theorem summary_row_of_price_zscore
  (s : store) (df : ref) (d : DataFrame) (c : numcol) (sd : R) :
  nth_error s df = Some d ->
  std 0 (column c d) = Some sd ->
  sd <> 0%R ->
  exists (res : exn + ref) (s' : store)
         (table : list (string * Summary)) (sm : Summary),
    normalize_and_discretize df c s = (res, s') /\
    descriptive_statistics df s' = (inr table, s') /\
    In ("price_zscore"%string, sm) table /\
    s_count sm = length (dropna (column c d)) /\
    s_mean sm = Some 0%R /\
    s_std sm
    = Some (sqrt (INR (length (dropna (column c d)))
                  / (INR (length (dropna (column c d))) - 1)))%R.
Proof.
  intros H Hstd Hsd.
  destruct (zscore_mean_std _ _ Hstd Hsd) as [Hm Hs].
  pose proof (std_nonzero_two_values _ _ Hstd Hsd) as Hn.
  destruct (std_inv _ _ _ Hstd) as (v & Hv & _).
  destruct (var_inv _ _ _ Hv) as (m & Hmean & _ & _).
  fold (zscores c d) in Hm, Hs.
  assert (Hlen : length (dropna (zscores c d)) = length (dropna (column c d))).
  { unfold zscores. rewrite Hmean, Hstd, (dropna_zscore m sd _ Hsd).
    apply length_map. }
  assert (Hsample : rstd 1 (zscores c d)
                    = Some (sqrt (INR (length (dropna (column c d)))
                                  / (INR (length (dropna (column c d))) - 1)))%R).
  { rewrite <- Hlen. apply (rstd_sample_of_unit _ 0%R); auto. now rewrite Hlen. }
  normalize_cases H; do 4 eexists;
    (split; [reflexivity|]);
    (split; [apply descriptive_statistics_run, (nth_error_update_same _ _ _ _ H)|]);
    cbn [price_zscore];
    (split; [right; right; left; reflexivity|]);
    (split; [exact Hlen|]); split; assumption.
Qed.

Lemma summary_row_of_price_zscore_witness :
  nth_error [three_prices] 0%nat = Some three_prices /\
  std 0 (column col_price three_prices) = Some (sqrt (Q2R (145800 # 2187))) /\
  sqrt (Q2R (145800 # 2187)) <> 0%R /\
  exists (s' : store) (table : list (string * Summary)) (sm : Summary),
    descriptive_statistics 0%nat s' = (inr table, s') /\
    In ("price_zscore"%string, sm) table /\
    s_count sm = 3%nat /\
    s_mean sm = Some 0%R /\
    s_std sm = Some (sqrt (INR 3 / (INR 3 - 1)))%R.
Proof.
  assert (Hstd : std 0 (column col_price three_prices)
                 = Some (sqrt (Q2R (145800 # 2187)))).
  { unfold std. now rewrite var_three_prices. }
  assert (Hne : sqrt (Q2R (145800 # 2187)) <> 0%R).
  { apply Rgt_not_eq, sqrt_lt_R0. unfold Q2R. simpl. lra. }
  split; [reflexivity|]. split; [exact Hstd|]. split; [exact Hne|].
  destruct (summary_row_of_price_zscore [three_prices] 0%nat three_prices col_price
              _ eq_refl Hstd Hne)
    as (res & s' & table & sm & _ & Hrun & Hin & Hc & Hm & Hs).
  exists s', table, sm. repeat split; assumption.
Defined.

(** ** The F statistic *)












(** ** The groups of anova_test *)

Lemma filter_or_disjoint {A} (p q : A -> bool) (l : list A) :
  (forall x, p x = true -> q x = false) ->
  Permutation (filter (fun x => p x || q x) l) (filter p l ++ filter q l).
Proof.
  intros Hd. induction l as [|x l IH]; simpl; auto.
  destruct (p x) eqn:Ep; simpl.
  - rewrite (Hd x Ep). now constructor.
  - destruct (q x); auto.
    rewrite IH. apply Permutation_middle.
Qed.

Lemma in_group_unique (k k' : string) (r : Row) :
  in_group k r = true -> in_group k' r = true -> k = k'.
Proof.
  unfold in_group. destruct (neighbourhood_group r); try discriminate.
  rewrite !String.eqb_eq. congruence.
Qed.

(** Groups taken for distinct keys split the rows that have one of the
    keys. *)
Lemma groups_partition (ks : list string) (l : list Row) :
  NoDup ks ->
  Permutation (concat (map (fun k => filter (in_group k) l) ks))
              (filter (fun r => existsb (fun k => in_group k r) ks) l).
Proof.
  induction 1 as [|k ks Hk Hnd IH]; simpl.
  - rewrite filter_all_false; auto.
  - rewrite filter_or_disjoint.
    + now apply Permutation_app_head.
    + intros r Hr. apply existsb_false. intros k' Hk'.
      destruct (in_group k' r) eqn:E; auto.
      exfalso. apply Hk. now rewrite (in_group_unique _ _ _ Hr E).
Qed.

Lemma sinsert_sorted (x : string) (l : list string) :
  Sorted (fun a b => String.leb a b = true) l ->
  Sorted (fun a b => String.leb a b = true) (sinsert x l).
Proof.
  induction l as [|y l IH]; intros H; simpl.
  - repeat constructor.
  - destruct (String.leb x y) eqn:E.
    + constructor; auto.
    + assert (Hyx : String.leb y x = true).
      { destruct (String.leb_total x y) as [L|L]; [congruence | exact L]. }
      inversion H as [|a b Hs Hh]; subst.
      constructor; auto.
      destruct l as [|z l]; simpl.
      * now constructor.
      * destruct (String.leb x z); constructor; auto.
        inversion Hh; auto.
Qed.

Lemma ssort_sorted (l : list string) :
  Sorted (fun a b => String.leb a b = true) (ssort l).
Proof.
  induction l as [|x l IH]; simpl; [constructor | now apply sinsert_sorted].
Qed.

Lemma groupby_keys_list (d : DataFrame) :
  map fst (groupby_neighbourhood_group d)
  = ssort (nodup string_dec (dropna (map neighbourhood_group (rows d)))).
Proof.
  unfold groupby_neighbourhood_group. rewrite map_map. simpl. apply map_id.
Qed.

(** X13.  [groupby] as [anova_test] uses it: the keys of the groups are
    the distinct neighbourhood groups that occur, each once and in
    ascending order; no group is empty; and the groups split the rows that
    have a neighbourhood group, so every such row is in exactly one group
    and a row without one is in none.  The number of observations handed
    to [f_oneway] is therefore the number of rows with a group. *)
Theorem groupby_partitions_rows (d : DataFrame) :
  NoDup (map fst (groupby_neighbourhood_group d)) /\
  Sorted (fun a b => String.leb a b = true) (map fst (groupby_neighbourhood_group d)) /\
  (forall k, In k (map fst (groupby_neighbourhood_group d)) <->
             exists r, In r (rows d) /\ neighbourhood_group r = Some k) /\
  (forall k g, In (k, g) (groupby_neighbourhood_group d) ->
               g <> [] /\ g = filter (in_group k) (rows d)) /\
  Permutation (concat (map snd (groupby_neighbourhood_group d)))
              (filter has_group (rows d)) /\
  length (concat (price_groups d)) = length (filter has_group (rows d)).
Proof.
  set (raw := dropna (map neighbourhood_group (rows d))).
  assert (Hkeys : forall k, In k (ssort (nodup string_dec raw)) <->
                            exists r, In r (rows d) /\ neighbourhood_group r = Some k).
  { intros k. split.
    - intros Hk. apply (Permutation_in _ (ssort_perm _)) in Hk.
      apply nodup_In in Hk. unfold raw in Hk. apply dropna_In in Hk.
      apply in_map_iff in Hk. destruct Hk as (r & E & Hr). eauto.
    - intros (r & Hr & E).
      apply (Permutation_in _ (Permutation_sym (ssort_perm _))).
      apply nodup_In. unfold raw. apply dropna_In. rewrite <- E. now apply in_map. }
  assert (Hnd : NoDup (ssort (nodup string_dec raw))).
  { apply (Permutation_NoDup (Permutation_sym (ssort_perm _))). apply NoDup_nodup. }
  assert (Hperm : Permutation (concat (map snd (groupby_neighbourhood_group d)))
                              (filter has_group (rows d))).
  { unfold groupby_neighbourhood_group. rewrite map_map. cbn [snd]. fold raw.
    rewrite (groups_partition _ _ Hnd).
    erewrite filter_ext_in; [reflexivity|].
    intros r Hr. unfold has_group.
    destruct (neighbourhood_group r) as [k|] eqn:E; simpl.
    - apply existsb_exists. exists k. split.
      + apply Hkeys. eauto.
      + unfold in_group. rewrite E. apply String.eqb_refl.
    - apply existsb_false. intros k _. unfold in_group. now rewrite E. }
  rewrite groupby_keys_list. fold raw.
  split; [exact Hnd|]. split; [apply ssort_sorted|]. split; [exact Hkeys|].
  split; [|split; [exact Hperm|]].
  - intros k g Hin. destruct (groupby_keys _ _ _ Hin) as (-> & r & Hr & E).
    split; auto. intros E0.
    assert (Hf : In r (filter (in_group k) (rows d))).
    { apply filter_In. split; auto. unfold in_group. rewrite E. apply String.eqb_refl. }
    rewrite E0 in Hf. contradiction.
  - rewrite <- (Permutation_length Hperm).
    unfold price_groups. rewrite !length_concat, !map_map.
    f_equal. apply map_ext. intros g. apply length_map.
Qed.

(** ** The F statistic does not depend on the unit of the prices *)













(** ** Running the feature deriver again *)

(** X15.  The feature deriver can be run again on the frame it has just
    handled: the second run ends as the first one did (with the same
    reference, or the same exception) and leaves the store as the first run
    left it. *)
Theorem normalize_and_discretize_twice
  (s : store) (df : ref) (d : DataFrame) (c : numcol) :
  nth_error s df = Some d ->
  exists (res : exn + ref) (s' : store),
    normalize_and_discretize df c s = (res, s') /\
    normalize_and_discretize df c s' = (res, s').
Proof.
  intros H.
  rewrite (normalize_and_discretize_run _ _ _ _ H).
  destruct (qcut (column c d) 3 _) as [e|bins] eqn:Eq; do 2 eexists;
    (split; [reflexivity|]);
    rewrite (normalize_and_discretize_run _ _ _ _ (nth_error_update_same _ _ _ _ H));
    match goal with
    | |- context [qcut (column c ?f)] => change (column c f) with (column c d)
    end;
    rewrite Eq; cbn [rows price_bin]; now rewrite update_update.
Qed.

Lemma normalize_and_discretize_twice_witness :
  nth_error [three_prices] 0%nat = Some three_prices /\
  exists (res : exn + ref) (s' : store),
    normalize_and_discretize 0%nat col_price [three_prices] = (res, s') /\
    normalize_and_discretize 0%nat col_price s' = (res, s').
Proof.
  split; [reflexivity|].
  exact (normalize_and_discretize_twice [three_prices] 0%nat three_prices col_price
           eq_refl).
Defined.

(** ** The derived columns under the filter *)

Lemma select_combine {A B} (m : list bool) (l1 : list A) (l2 : list B) :
  select m (combine l1 l2) = combine (select m l1) (select m l2).
Proof.
  revert l1 l2. induction m as [|b m IH]; intros [|x l1] [|y l2]; simpl; auto.
  - destruct b; auto. destruct (select m l1); reflexivity.
  - destruct b; simpl; now rewrite IH.
Qed.

Lemma select_map_fst {A B} (p : A -> bool) (l1 : list A) (l2 : list B) :
  select (map p l1) (combine l1 l2) = filter (fun t => p (fst t)) (combine l1 l2).
Proof.
  revert l2. induction l1 as [|x l1 IH]; intros [|y l2]; simpl; auto.
  destruct (p x); now rewrite IH.
Qed.

(** X16.  The outlier filter cuts the derived columns with the rows: on a
    frame that already has [price_zscore] and [price_bin], the frame it
    returns has both, and each row that is kept still carries the z-score
    and the bin it had. *)
Theorem remove_price_outliers_keeps_derived
  (s : store) (df : ref) (d : DataFrame) (c : numcol)
  (z : list rcell) (b : list (option string)) :
  nth_error s df = Some d ->
  price_zscore d = Some z ->
  price_bin d = Some b ->
  exists (out : DataFrame) (keep : Row -> bool)
         (z' : list rcell) (b' : list (option string)),
    remove_price_outliers df c s = (inr (S (length s)), s ++ [out; out]) /\
    rows out = filter keep (rows d) /\
    price_zscore out = Some z' /\
    price_bin out = Some b' /\
    combine (rows out) (combine z' b')
    = filter (fun t => keep (fst t)) (combine (rows d) (combine z b)).
Proof.
  intros H Hz Hb. do 4 eexists.
  split; [apply (remove_price_outliers_run _ _ _ _ H)|].
  split; [apply rows_getitem_mask_column|].
  unfold getitem_mask. cbn [rows price_zscore price_bin]. rewrite Hz, Hb.
  split; [reflexivity|]. split; [reflexivity|].
  rewrite <- !select_combine. unfold column. rewrite map_map.
  apply (select_map_fst (fun r => _ (getcol c r))).
Qed.

Lemma remove_price_outliers_keeps_derived_witness :
  nth_error [mkFrame (rows three_prices) (Some [None; None; None])
                     (Some [Some "low"%string; None; Some "high"%string])] 0%nat
  = Some (mkFrame (rows three_prices) (Some [None; None; None])
                  (Some [Some "low"%string; None; Some "high"%string])) /\
  exists (out : DataFrame) (z' : list rcell) (b' : list (option string)),
    price_zscore out = Some z' /\ price_bin out = Some b'.
Proof.
  split; [reflexivity|].
  destruct (remove_price_outliers_keeps_derived
              [mkFrame (rows three_prices) (Some [None; None; None])
                       (Some [Some "low"%string; None; Some "high"%string])]
              0%nat _ col_price _ _ eq_refl eq_refl eq_refl)
    as (out & keep & z' & b' & _ & _ & Hz & Hb & _).
  exists out, z', b'. split; assumption.
Defined.
